(** * beartype: hint resolution, ignorability, wrapper markers and the
      package registry

    A shallow embedding of

    - [beartype/_util/hint/utilhinttest.py]
      ([die_unless_hint], [is_hint], [is_hint_ignorable]),
    - [beartype/_decor/_cache/cachehint.py]
      ([_HINT_REPR_TO_HINT], [cache_hint_nonpep563]),
    - [beartype/_util/func/lib/utilbeartypefunc.py] and
      [beartype/_util/func/mod/utilbeartypefunc.py]
      ([is_func_unbeartypeable], [is_func_beartyped], [set_func_beartyped]),
    - [beartype/claw/_pkg/clawpkgadd.py]
      ([get_package_conf_if_added], [add_packages_all], [add_packages]).

    Python objects are finite trees; a function that may raise returns a
    [result]; a function that mutates an object or a module global takes the
    old value and returns the new one next to its result. *)

From Stdlib Require Import String Ascii.
From stdpp Require Import base option list strings gmap fin_maps.

Local Open Scope string_scope.
Set Warnings "-register-all".

(** ** Exceptions and results *)

Inductive exception : Type :=
  | TypeError
  | AttributeError
  | BeartypeDecorHintPepUnsupportedException
  | BeartypeDecorHintNonPepException
  | BeartypeClawRegistrationException.

Inductive result (A : Type) : Type :=
  | Return (value : A)
  | Raise (exc : exception).

Arguments Return {A} value.
Arguments Raise {A} exc.

(** Sequencing: an exception raised by the first statement propagates. *)
#[export] Instance result_bind : MBind result := fun A B k r =>
  match r with
  | Return value => k value
  | Raise exc => Raise exc
  end.

(** ** Python objects

    The objects the modules above inspect.  [oid] is the identity of an
    alias object: two aliases built by two subscriptions that do not cache
    (as [list[int]] written twice) differ in [oid] only.  The [is] of Python
    is Leibniz equality on this type. *)

Inductive object : Type :=
  | Class (name : string)
      (* a class: [int], [str], [object], [list], ... *)
  | Str (text : string)
      (* a [str] instance, as a forward reference to a class *)
  | Tuple (items : list object)
      (* a [tuple] instance *)
  | List (items : list object)
      (* a [list] instance: mutable, hence unhashable *)
  | TypingAttr (name : string)
      (* an unsubscripted attribute of [typing]: [Any], [Union], ... *)
  | Alias (oid : nat) (origin : object) (args metadata : list object)
      (* a subscription: [__origin__], [__args__] and [__metadata__] *)
  | Iterator (items : list object).
      (* a one-shot iterator, as a generator, that has these items left to
         yield *)

(** [isinstance(hint, tuple)]. *)
Definition isinstance_tuple (hint : object) : bool :=
  match hint with
  | Tuple _ => true
  | _ => false
  end.

(** [hash(obj)] succeeds: lists are unhashable, and a tuple or an alias
    hashes its components. *)
Fixpoint is_hashable (obj : object) : bool :=
  match obj with
  | Class _ | Str _ | TypingAttr _ | Iterator _ => true
  | Tuple items => forallb is_hashable items
  | List _ => false
  | Alias _ origin args metadata =>
      is_hashable origin && forallb is_hashable args
      && forallb is_hashable metadata
  end.

(** [repr(obj)], the machine-readable representation keying
    [_HINT_REPR_TO_HINT].  It does not show the identity of an object. *)
Fixpoint repr (obj : object) : string :=
  let fix repr_items (items : list object) : string :=
    match items with
    | [] => ""
    | [item] => repr item
    | item :: rest => repr item ++ ", " ++ repr_items rest
    end in
  match obj with
  | Class name => name
  | Str text => "'" ++ text ++ "'"
  | Tuple items => "(" ++ repr_items items ++ ")"
  | List items => "[" ++ repr_items items ++ "]"
  | TypingAttr name => "typing." ++ name
  | Alias _ origin args metadata =>
      match metadata with
      | [] => repr origin ++ "[" ++ repr_items args ++ "]"
      | _ => "typing.Annotated[" ++ repr origin ++ ", "
             ++ repr_items metadata ++ "]"
      end
  | Iterator _ => "<generator object>"
  end.

(** ** The hint helpers this snapshot imports but does not contain *)

Class HintHost : Type := {
  (** the type of the signs returned by [get_hint_pep_sign] *)
  sign : Type;
  sign_eq_dec :: EqDecision sign;
  (** [beartype._util.hint.pep.utilhintpeptest.is_hint_pep] *)
  is_hint_pep : object -> bool;
  (** [beartype._util.hint.pep.utilhintpeptest.is_hint_pep_supported] *)
  is_hint_pep_supported : object -> bool;
  (** [beartype._util.hint.pep.utilhintpeptest.die_unless_hint_pep_supported] *)
  die_unless_hint_pep_supported : object -> string -> result unit;
  (** [beartype._util.hint.nonpep.utilhintnonpeptest.is_hint_nonpep] *)
  is_hint_nonpep : object -> bool -> bool;
  (** [beartype._util.hint.nonpep.utilhintnonpeptest.die_unless_hint_nonpep] *)
  die_unless_hint_nonpep : object -> string -> bool -> result unit;
  (** [beartype._util.hint.pep.utilhintpepget.get_hint_pep_sign] *)
  get_hint_pep_sign : object -> sign;
  (** [beartype._util.hint.data.pep.utilhintdatapep.HINT_PEP_SIGNS_UNION] *)
  HINT_PEP_SIGNS_UNION : list sign;
  (** [beartype._util.hint.pep.utilhintpeptyping.Annotated] *)
  Annotated : sign;
  (** [beartype._util.hint.data.utilhintdata.HINTS_SHALLOW_IGNORABLE], as
      the characteristic function of that frozenset *)
  HINTS_SHALLOW_IGNORABLE : object -> bool;
  (** [typing.Union.__getitem__] *)
  Union_getitem : object -> result object;
}.

(** Modelled from the spec: the [callable_cached] decorator of
    [beartype._util.cache.utilcachecall] is missing.  "Raises a hashability
    error (distinct kind) if the object cannot participate in hash-based
    memoization": the positional arguments are hashed before the decorated
    body runs.  The table of past results only replays what the body, a
    function of those arguments, would return again, and is left out. *)
Definition callable_cached {A : Type} (params : list object)
    (body : result A) : result A :=
  if forallb is_hashable params then body else Raise TypeError.

(** [hint in some_frozenset]: hashes [hint], then tests membership. *)
Definition frozenset_contains (members : object -> bool) (hint : object)
    : result bool :=
  if is_hashable hint then Return (members hint) else Raise TypeError.

(** Modelled from the spec: [get_hint_pep_args] of
    [beartype._util.hint.pep.utilhintpepget] is missing.  A hint has "zero
    or more child hints (for compound hints)": the [__args__] of the hint,
    and no child for an object without that attribute. *)
Definition get_hint_pep_args (hint : object) : list object :=
  match hint with
  | Alias _ _ args _ => args
  | _ => []
  end.

(** [hint.__origin__]. *)
Definition getattr_origin (hint : object) : result object :=
  match hint with
  | Alias _ origin _ _ => Return origin
  | _ => Raise AttributeError
  end.

Section utilhinttest.
Context `{HintHost}.

(** [is_hint], under [@callable_cached]. *)
Definition is_hint (hint : object) (is_str_valid : bool) : result bool :=
  callable_cached [hint]
    (Return (if is_hint_pep hint then is_hint_pep_supported hint
             else is_hint_nonpep hint is_str_valid)).

(** [die_unless_hint]. *)
Definition die_unless_hint (hint : object) (hint_label : string)
    (is_str_valid : bool) : result unit :=
  supported ← is_hint hint is_str_valid;
  if (supported : bool) then Return tt
  else
    (if is_hint_pep hint
     then die_unless_hint_pep_supported hint hint_label
     else Return tt);;
    die_unless_hint_nonpep hint hint_label is_str_valid.

(** [any(test(child) for child in children)]: stops at the first child
    for which [test] returns [True], and at the first that raises. *)
Definition any_result (test : object -> result bool)
    : list object -> result bool :=
  fix any_children (children : list object) : result bool :=
    match children with
    | [] => Return false
    | hint_child :: rest =>
        found ← test hint_child;
        if (found : bool) then Return true else any_children rest
    end.

(** [is_hint_ignorable], under [@callable_cached].  The recursion is on
    the structure of the hint, so [get_hint_pep_args(hint)] and
    [hint.__origin__] are written as the [match] they compute;
    [is_hint_ignorable_unfold] below restates the body with them. *)
Fixpoint is_hint_ignorable (hint : object) : result bool :=
  callable_cached [hint]
    (shallow ← frozenset_contains HINTS_SHALLOW_IGNORABLE hint;
     if (shallow : bool) then Return true
     else if is_hint_pep hint then
       let hint_attr := get_hint_pep_sign hint in
       if bool_decide (hint_attr ∈ HINT_PEP_SIGNS_UNION) then
         match hint with
         | Alias _ _ args _ => any_result is_hint_ignorable args
         | _ => Return false
         end
       else if bool_decide (hint_attr = Annotated) then
         match hint with
         | Alias _ origin _ _ => is_hint_ignorable origin
         | _ => Raise AttributeError
         end
       else Return false
     else Return false).

End utilhinttest.

(** In this host every hint whose sign is [Annotated] has an
    [__origin__]. *)
Definition Annotated_hints_have_origin `{HintHost} : Prop :=
  forall hint,
    is_hint_pep hint = true -> get_hint_pep_sign hint = Annotated ->
    exists origin, getattr_origin hint = Return origin.

(** ** Callables

    A callable is the dictionary of its attributes; [getattr], [hasattr]
    and attribute assignment are lookups and insertions in it. *)

Inductive value : Type :=
  | VNone
  | VBool (b : bool)
  | VDict (items : gmap string object)
  | VObject (obj : object).

Abbreviation callable := (gmap string value).

(** [bool(v)]: [None], [False] and the empty dictionary are falsy. *)
Definition truthy (v : value) : bool :=
  match v with
  | VNone => false
  | VBool b => b
  | VDict items => negb (bool_decide (items = ∅))
  | VObject _ => true
  end.

(** [func.name]. *)
Definition getattr (func : callable) (name : string) : result value :=
  match (func : gmap string value) !! name with
  | Some v => Return v
  | None => Raise AttributeError
  end.

(** [getattr(func, name, default)]. *)
Definition getattr_default (func : callable) (name : string)
    (default : value) : value :=
  match (func : gmap string value) !! name with
  | Some v => v
  | None => default
  end.

(** [hasattr(func, name)]. *)
Definition hasattr (func : callable) (name : string) : bool :=
  bool_decide (is_Some ((func : gmap string value) !! name)).

(** [func.name = v], where the type of [func] takes the attribute. *)
Definition setattr (func : callable) (name : string) (v : value)
    : callable :=
  <[name := v]> (func : gmap string value).

(** [func.__annotations__[pith_name] = hint]: the attribute is read, and
    the dictionary it holds is updated in place. *)
Definition setitem_annotations (func : callable) (pith_name : string)
    (hint : object) : result callable :=
  annotations ← getattr func "__annotations__";
  match annotations with
  | VDict items =>
      Return (setattr func "__annotations__"
                (VDict (<[pith_name := hint]> items)))
  | _ => Raise TypeError
  end.

(** The hint in the annotation slot [pith_name] of [func], if any. *)
Definition annotation_slot (func : callable) (pith_name : string)
    : option object :=
  match (func : gmap string value) !! "__annotations__" with
  | Some (VDict items) => items !! pith_name
  | _ => None
  end.

(** ** [beartype._decor._cache.cachehint] *)

Section cachehint.
Context `{HintHost}.

(** What a call leaves behind: its result, the callable and the module
    global [_HINT_REPR_TO_HINT], both as the call left them (also when it
    raised). *)
Record outcome : Type := {
  returned : result object;
  func_after : callable;
  _HINT_REPR_TO_HINT_after : gmap string object;
}.

(** [cache_hint_nonpep563].  The two [assert]s hold by the types of [func]
    and [pith_name].  In [hint = func.__annotations__[pith_name] = ...] the
    right-hand side is evaluated first and the slot is assigned before
    [die_unless_hint] is called. *)
Definition cache_hint_nonpep563 (func : callable) (pith_name : string)
    (hint : object) (hint_label : string)
    (_HINT_REPR_TO_HINT : gmap string object) : outcome :=
  let coerced : result object * callable :=
    if isinstance_tuple hint then
      match Union_getitem hint with
      | Return union =>
          match setitem_annotations func pith_name union with
          | Return func' => (Return union, func')
          | Raise exc => (Raise exc, func)
          end
      | Raise exc => (Raise exc, func)
      end
    else (Return hint, func) in
  {| returned :=
       hint ← coerced.1;
       die_unless_hint hint hint_label true;;
       Return hint;
     func_after := coerced.2;
     _HINT_REPR_TO_HINT_after := _HINT_REPR_TO_HINT |}.

End cachehint.

(** ** [beartype._util.func]: wrapper markers *)

Class FuncHost : Type := {
  (** [beartype._util.func.pep.utilpep484func.is_func_pep484_notypechecked] *)
  is_func_pep484_notypechecked : callable -> bool;
  (** [is_sphinx_autodocing] of [utilsphinx], a function of the state of
      the process (the loaded modules and the call stack) *)
  process : Type;
  is_sphinx_autodocing : process -> bool;
  (** whether the objects of a type take new attributes: the type of an
      object, read as its [__class__], decides whether [obj.name = v]
      succeeds (a function, an instance with a [__dict__]) or raises
      [AttributeError] (a builtin, a bound method, an instance of a class
      with [__slots__]) *)
  type_takes_attributes : option value -> bool;
}.

(** [is_func_beartyped]; the same in both modules below. *)
Definition is_func_beartyped (func : callable) : bool :=
  hasattr func "__beartype_wrapper".

(** [func.name = v] on an object of any type: [AttributeError] when the
    type of [func] takes no attribute. *)
Definition setattr_checked `{FuncHost} (func : callable) (name : string)
    (v : value) : result callable :=
  if type_takes_attributes (func !! "__class__")
  then Return (setattr func name v)
  else Raise AttributeError.

(** [set_func_beartyped]; the same in both modules below.  It returns the
    callable as the assignment left it. *)
Definition set_func_beartyped `{FuncHost} (func : callable)
    : result callable :=
  setattr_checked func "__beartype_wrapper" (VBool true).

(** [beartype/_util/func/mod/utilbeartypefunc.py]. *)
Module func_mod.
Section func_mod.
Context `{FuncHost}.

Definition is_func_unbeartypeable (proc : process) (func : callable)
    : result bool :=
  Return (negb (truthy (getattr_default func "__annotations__" VNone))
          || is_func_pep484_notypechecked func
          || is_func_beartyped func
          || is_sphinx_autodocing proc).

End func_mod.
End func_mod.

(** [beartype/_util/func/lib/utilbeartypefunc.py]. *)
Module func_lib.
Section func_lib.
Context `{FuncHost}.

Definition is_func_unbeartypeable (proc : process) (func : callable)
    : result bool :=
  annotations ← getattr func "__annotations__";
  Return (negb (truthy annotations)
          || is_func_pep484_notypechecked func
          || is_func_beartyped func
          || is_sphinx_autodocing proc).

End func_lib.
End func_lib.

(** The calls of the modules above that take a callable, and what each
    does to it: the testers only read it, and a [set_func_beartyped] that
    raises leaves it as it was. *)
Inductive call : Type :=
  | call_is_func_unbeartypeable
  | call_is_func_beartyped
  | call_set_func_beartyped
  | call_cache_hint_nonpep563 (pith_name : string) (hint : object)
      (hint_label : string).

Definition call_effect `{HintHost} `{FuncHost} (func : callable) (c : call)
    : callable :=
  match c with
  | call_is_func_unbeartypeable | call_is_func_beartyped => func
  | call_set_func_beartyped =>
      match set_func_beartyped func with
      | Return func' => func'
      | Raise _ => func
      end
  | call_cache_hint_nonpep563 pith_name hint hint_label =>
      func_after (cache_hint_nonpep563 func pith_name hint hint_label ∅)
  end.

(** The callable after a sequence of calls, the first call first. *)
Definition calls_effect `{HintHost} `{FuncHost} (func : callable)
    (calls : list call) : callable :=
  foldl call_effect func calls.

(** The callable has no annotations: no slot holds a hint. *)
Definition unannotated (func : callable) : Prop :=
  forall pith_name, annotation_slot func pith_name = None.

(** [__annotations__], when the callable has it, is a dictionary. *)
Definition annotations_is_dict (func : callable) : Prop :=
  forall v, func !! "__annotations__" = Some v ->
            exists items, v = VDict items.

(** ** [beartype.claw._pkg.clawpkgadd]: the package registry *)

(** [str.split(sep)] for a one-character separator: never the empty list. *)
Fixpoint split (sep : ascii) (text : string) : list string :=
  match text with
  | EmptyString => [EmptyString]
  | String c rest =>
      if Ascii.eqb c sep then EmptyString :: split sep rest
      else match split sep rest with
           | first :: others => String c first :: others
           | [] => [String c EmptyString]
           end
  end.

(** The code points of a text held as UTF-8: a byte [10xxxxxx] continues
    the code point of the byte before it. *)
Fixpoint code_points (text : string) : list string :=
  match text with
  | EmptyString => []
  | String c rest =>
      match code_points rest with
      | String c' rest' :: others =>
          if ((128 <=? nat_of_ascii c')%nat && (nat_of_ascii c' <? 192)%nat)
          then String c (String c' rest') :: others
          else String c EmptyString :: String c' rest' :: others
      | others => String c EmptyString :: others
      end
  end.

(** [isinstance(obj, collections.abc.Iterable)].  Of the iterables of
    Python the type [object] has the string, the tuple, the list and the
    one-shot iterator; a container that is iterated over again alike, as a
    set, is here as the list of its items. *)
Definition isinstance_Iterable (obj : object) : bool :=
  match obj with
  | Str _ | Tuple _ | List _ | Iterator _ => true
  | _ => false
  end.

(** [bool(obj)]: a string, a tuple or a list is true when it is not
    empty; an iterator has neither [__bool__] nor [__len__] and is true
    whatever it has left to yield, as is any other object here. *)
Definition bool_object (obj : object) : bool :=
  match obj with
  | Str text => negb (bool_decide (text = EmptyString))
  | Tuple items | List items => negb (bool_decide (items = []))
  | _ => true
  end.

(** [for item in obj]: the items iterated over and the object after the
    loop.  A string is iterated by its characters, a tuple or a list by its
    items, as often as asked; an iterator yields what it has left and is
    exhausted afterwards; anything else is not iterable. *)
Definition iterate (obj : object) : result (list object * object) :=
  match obj with
  | Str text => Return (Str <$> code_points text, obj)
  | Tuple items | List items => Return (items, obj)
  | Iterator items => Return (items, Iterator [])
  | _ => Raise TypeError
  end.

Class ClawHost : Type := {
  (** [beartype._conf.confcls.BeartypeConf], a self-caching class: two
      configurations are the same object when they are equal *)
  BeartypeConf : Type;
  BeartypeConf_eq_dec :: EqDecision BeartypeConf;
  (** [beartype._util.text.utiltextident.is_identifier] *)
  is_identifier : string -> bool;
}.

Section clawpkgadd.
Context `{ClawHost}.

(** Modelled from the spec: the class [PackageBasenameToSubpackages] of
    [beartype.claw._pkg._clawpkgtrie] is missing.  It is the node of "the
    package-name registration trie": a dictionary from the basename of a
    subpackage to the node of that subpackage, with the attribute
    [conf_if_added] read and written below ([None] until registered). *)
Inductive PackageBasenameToSubpackages : Type :=
  | Subpackages (conf : option BeartypeConf)
      (items : gmap string PackageBasenameToSubpackages).

Definition conf_if_added (node : PackageBasenameToSubpackages)
    : option BeartypeConf :=
  match node with
  | Subpackages conf _ => conf
  end.

Definition subpackages (node : PackageBasenameToSubpackages)
    : gmap string PackageBasenameToSubpackages :=
  match node with
  | Subpackages _ items => items
  end.

(** [PackageBasenameToSubpackages()]: no configuration, no subpackage. *)
Definition PackageBasenameToSubpackages_new : PackageBasenameToSubpackages :=
  Subpackages None ∅.

(** The loop of [get_package_conf_if_added]: walk down from the node
    [package_basename_to_subpackages_curr], keeping the configuration of
    the deepest registered package met; [break] at the first basename that
    has no node. *)
Fixpoint get_package_conf_loop (package_basenames : list string)
    (package_basename_to_subpackages_curr : PackageBasenameToSubpackages)
    (package_conf_if_added : option BeartypeConf) : option BeartypeConf :=
  match package_basenames with
  | [] => package_conf_if_added
  | package_basename :: rest =>
      match subpackages package_basename_to_subpackages_curr
              !! package_basename with
      | None => package_conf_if_added
      | Some package_subpackages =>
          get_package_conf_loop rest package_subpackages
            (match conf_if_added package_subpackages with
             | Some conf => Some conf
             | None => package_conf_if_added
             end)
      end
  end.

(** [get_package_conf_if_added], reading the module global
    [package_basename_to_subpackages].  [package_basenames[0]] exists since
    [split] never returns the empty list. *)
Definition get_package_conf_if_added
    (package_basename_to_subpackages : PackageBasenameToSubpackages)
    (package_name : string) : option BeartypeConf :=
  let package_basenames := split "." package_name in
  if bool_decide (package_basenames !! 0%nat = Some "beartype") then None
  else
    get_package_conf_loop package_basenames package_basename_to_subpackages
      (conf_if_added package_basename_to_subpackages).

(** [add_packages_all]; [conf] is a [BeartypeConf] by its type. *)
Definition add_packages_all (conf : BeartypeConf)
    (package_basename_to_subpackages : PackageBasenameToSubpackages)
    : result unit * PackageBasenameToSubpackages :=
  match conf_if_added package_basename_to_subpackages with
  | None =>
      (Return tt,
       Subpackages (Some conf) (subpackages package_basename_to_subpackages))
  | Some conf_curr =>
      if decide (conf_curr = conf)
      then (Return tt, package_basename_to_subpackages)
      else (Raise BeartypeClawRegistrationException,
            package_basename_to_subpackages)
  end.

(** The validation loop of [add_packages]. *)
Fixpoint add_packages_validate (package_names : list object) : result unit :=
  match package_names with
  | [] => Return tt
  | package_name :: rest =>
      match package_name with
      | Str text =>
          if is_identifier text then add_packages_validate rest
          else Raise BeartypeClawRegistrationException
      | _ => Raise BeartypeClawRegistrationException
      end
  end.

(** The registration of one package: the inner loop of [add_packages]
    walks down the basenames from the node [curr], creating the nodes that
    are missing, and the node it ends on takes [conf].  The nodes are
    shared with the registry, so the node returned here is [curr] as the
    walk left it.  An exception is raised at the end of the walk only, by a
    node that holds a configuration already: then every node of the walk
    was there before and nothing was created
    ([register_package_raise_registered]). *)
Fixpoint register_package (package_basenames : list string)
    (conf : BeartypeConf) (curr : PackageBasenameToSubpackages)
    : result PackageBasenameToSubpackages :=
  match package_basenames with
  | [] =>
      match conf_if_added curr with
      | None => Return (Subpackages (Some conf) (subpackages curr))
      | Some conf_curr =>
          if decide (conf_curr = conf) then Return curr
          else Raise BeartypeClawRegistrationException
      end
  | package_basename :: rest =>
      let package_subpackages :=
        match subpackages curr !! package_basename with
        | Some node => node
        | None => PackageBasenameToSubpackages_new
        end in
      package_subpackages' ← register_package rest conf package_subpackages;
      Return (Subpackages (conf_if_added curr)
                (<[package_basename := package_subpackages']>
                   (subpackages curr)))
  end.

(** The registration loop of [add_packages]: the packages registered
    before one that raises stay registered. *)
Fixpoint add_packages_register (package_names : list object)
    (conf : BeartypeConf)
    (package_basename_to_subpackages : PackageBasenameToSubpackages)
    : result unit * PackageBasenameToSubpackages :=
  match package_names with
  | [] => (Return tt, package_basename_to_subpackages)
  | package_name :: rest =>
      match package_name with
      | Str text =>
          match register_package (split "." text) conf
                  package_basename_to_subpackages with
          | Return registry' => add_packages_register rest conf registry'
          | Raise exc => (Raise exc, package_basename_to_subpackages)
          end
      | _ => (Raise AttributeError, package_basename_to_subpackages)
      end
  end.

(** [add_packages]; [conf] is a [BeartypeConf] by its type.  The package
    names are tested for truth once and iterated over twice, by the
    validation loop and then by the registration loop. *)
Definition add_packages (package_names : object) (conf : BeartypeConf)
    (package_basename_to_subpackages : PackageBasenameToSubpackages)
    : result unit * PackageBasenameToSubpackages :=
  let package_names :=
    match package_names with
    | Str _ => Tuple [package_names]
    | _ => package_names
    end in
  if negb (isinstance_Iterable package_names)
  then (Raise BeartypeClawRegistrationException,
        package_basename_to_subpackages)
  else if negb (bool_object package_names)
  then (Raise BeartypeClawRegistrationException,
        package_basename_to_subpackages)
  else
    match iterate package_names with
    | Raise exc => (Raise exc, package_basename_to_subpackages)
    | Return (validated, package_names) =>
        match add_packages_validate validated with
        | Raise exc => (Raise exc, package_basename_to_subpackages)
        | Return _ =>
            match iterate package_names with
            | Raise exc => (Raise exc, package_basename_to_subpackages)
            | Return (registered, _) =>
                add_packages_register registered conf
                  package_basename_to_subpackages
            end
        end
    end.

(** The node of the package with these basenames, if it was created. *)
Fixpoint subpackages_at (package_basenames : list string)
    (curr : PackageBasenameToSubpackages)
    : option PackageBasenameToSubpackages :=
  match package_basenames with
  | [] => Some curr
  | package_basename :: rest =>
      subpackages curr !! package_basename ≫= subpackages_at rest
  end.

(** The configuration a package was registered under, if it was. *)
Definition registered_conf
    (package_basename_to_subpackages : PackageBasenameToSubpackages)
    (package_name : string) : option BeartypeConf :=
  subpackages_at (split "." package_name) package_basename_to_subpackages
    ≫= conf_if_added.

(** The two passes of [add_packages] over its package names, when it
    reaches its loops: the items of the validation loop and the items of
    the registration loop.  A string stands for the 1-tuple that holds it;
    [None] when the package names are not iterable or not true. *)
Definition package_names_passes (package_names : object)
    : option (list object * list object) :=
  let package_names :=
    match package_names with
    | Str _ => Tuple [package_names]
    | _ => package_names
    end in
  if isinstance_Iterable package_names && bool_object package_names then
    match iterate package_names with
    | Return (validated, package_names) =>
        match iterate package_names with
        | Return (registered, _) => Some (validated, registered)
        | Raise _ => None
        end
    | Raise _ => None
    end
  else None.

(** The package names the validation loop of [add_packages] iterates
    over. *)
Definition package_names_validated (package_names : object)
    : option (list object) :=
  fst <$> package_names_passes package_names.

(** The package names the registration loop of [add_packages] iterates
    over: those of a string, a tuple or a list, and none of a one-shot
    iterator, which the validation loop has exhausted. *)
Definition package_names_items (package_names : object)
    : option (list object) :=
  snd <$> package_names_passes package_names.

(** The item is a string, and that string is a package name: a
    "."-delimited concatenation of identifiers. *)
Definition is_package_name (package_name : object) : bool :=
  match package_name with
  | Str text => is_identifier text
  | _ => false
  end.

End clawpkgadd.

(** ** [beartype._util.py.utilpyversion] *)

(** [left >= right] on tuples of integers: the first position where the
    two differ decides, and a tuple is greater than its proper prefixes. *)
Fixpoint tuple_ge (left right : list nat) : bool :=
  match left, right with
  | _, [] => true
  | [], _ :: _ => false
  | x :: left', y :: right' =>
      if (x <? y)%nat then false
      else if (y <? x)%nat then true
      else tuple_ge left' right'
  end.

Section utilpyversion.
(** [sys.version_info], as far as a comparison with a pair reads it: the
    major, minor and micro versions. *)
Variable version_info : list nat.

Definition IS_PYTHON_AT_LEAST_4_0 : bool := tuple_ge version_info [4; 0].

Definition IS_PYTHON_AT_LEAST_3_9 : bool :=
  IS_PYTHON_AT_LEAST_4_0 || tuple_ge version_info [3; 9].

Definition IS_PYTHON_AT_LEAST_3_8 : bool :=
  IS_PYTHON_AT_LEAST_3_9 || tuple_ge version_info [3; 8].

Definition IS_PYTHON_AT_LEAST_3_7 : bool :=
  IS_PYTHON_AT_LEAST_3_8 || tuple_ge version_info [3; 7].

Definition IS_PYTHON_AT_LEAST_3_6 : bool :=
  IS_PYTHON_AT_LEAST_3_7 || tuple_ge version_info [3; 6].

End utilpyversion.

(** ** [utilhinttest]: what [is_hint_ignorable] decides *)

(** The rules of the docstring of [is_hint_ignorable] and of the comments
    in its body: a hint of the shallow set; a union one of whose child
    hints is ignorable; an annotated hint whose origin is ignorable. *)
Inductive deeply_ignorable `{HintHost} : object -> Prop :=
  | ignorable_shallow (hint : object) :
      HINTS_SHALLOW_IGNORABLE hint = true -> deeply_ignorable hint
  | ignorable_union (hint hint_child : object) :
      is_hint_pep hint = true ->
      get_hint_pep_sign hint ∈ HINT_PEP_SIGNS_UNION ->
      hint_child ∈ get_hint_pep_args hint ->
      deeply_ignorable hint_child -> deeply_ignorable hint
  | ignorable_annotated (hint origin : object) :
      is_hint_pep hint = true ->
      get_hint_pep_sign hint ∉ HINT_PEP_SIGNS_UNION ->
      get_hint_pep_sign hint = Annotated ->
      getattr_origin hint = Return origin ->
      deeply_ignorable origin -> deeply_ignorable hint.

(** The two [die_unless_*] helpers raise for the hints their [is_*]
    testers reject, as the "Synchronize" banners of [die_unless_hint] and
    [is_hint] ask. *)
Definition die_helpers_synchronized `{HintHost} : Prop :=
  (forall hint hint_label,
      is_hint_pep_supported hint = false ->
      exists exc, die_unless_hint_pep_supported hint hint_label = Raise exc)
  /\ (forall hint hint_label is_str_valid,
      is_hint_nonpep hint is_str_valid = false ->
      exists exc,
        die_unless_hint_nonpep hint hint_label is_str_valid = Raise exc).

(** ** [clawpkgadd]: the rest of the module *)

(** [sep.join(items)]. *)
Fixpoint join (sep : ascii) (items : list string) : string :=
  match items with
  | [] => EmptyString
  | [item] => item
  | item :: rest => item ++ String sep (join sep rest)
  end.

Section clawpkgadd_rest.
Context `{ClawHost}.

(** [is_packages_registered_any]: the truth value of the registry, a
    dictionary, is that it has an item. *)
Definition is_packages_registered_any
    (package_basename_to_subpackages : PackageBasenameToSubpackages)
    : bool :=
  negb (bool_decide (subpackages package_basename_to_subpackages = ∅)).

(** [package_basename_to_subpackages.clear()]: the items of the
    dictionary are removed; its attribute is not an item. *)
Definition PackageBasenameToSubpackages_clear
    (package_basename_to_subpackages : PackageBasenameToSubpackages)
    : PackageBasenameToSubpackages :=
  Subpackages (conf_if_added package_basename_to_subpackages) ∅.

(** [with packages_unadded(): block]: the block runs, and the registry is
    cleared in the [finally] clause, whether the block returned or
    raised. *)
Definition packages_unadded {A : Type}
    (block : PackageBasenameToSubpackages ->
             result A * PackageBasenameToSubpackages)
    (package_basename_to_subpackages : PackageBasenameToSubpackages)
    : result A * PackageBasenameToSubpackages :=
  let outcome := block package_basename_to_subpackages in
  (outcome.1, PackageBasenameToSubpackages_clear outcome.2).

(** The configuration of the node reached by these basenames, if that
    node exists and is registered. *)
Definition registered_conf_at (package_basenames : list string)
    (package_basename_to_subpackages : PackageBasenameToSubpackages)
    : option BeartypeConf :=
  subpackages_at package_basenames package_basename_to_subpackages
    ≫= conf_if_added.

(** Every configuration registered for a package of the registry is
    [conf]. *)
Definition registered_only_under (conf : BeartypeConf)
    (package_basename_to_subpackages : PackageBasenameToSubpackages)
    : Prop :=
  forall package_basenames conf_curr,
    package_basenames <> [] ->
    registered_conf_at package_basenames package_basename_to_subpackages
    = Some conf_curr ->
    conf_curr = conf.

End clawpkgadd_rest.

(** ** [beartype.claw._clawimportlib] *)

(** An item of [sys.path_hooks]: the closure
    [FileFinder.path_hook((_BeartypeSourceFileLoader, SOURCE_SUFFIXES))],
    or a hook of another origin. *)
Inductive path_hook : Type :=
  | path_hook_beartype
  | path_hook_other (name : string).

(** The import state [beartype_submodules_on_import] acts on:
    [sys.path_hooks], [sys.path_importer_cache] (from a path to the name of
    its finder) and the number of calls of [importlib.invalidate_caches]. *)
Record import_state : Type := {
  path_hooks : list path_hook;
  path_importer_cache : gmap string string;
  caches_invalidated : nat;
}.

(** What the function reads of its caller: the name of the code object of
    the calling frame and the [__name__] of its globals. *)
Record frame : Type := {
  co_name : string;
  f_globals_name : string;
}.

(** [c in text]. *)
Fixpoint contains_char (c : ascii) (text : string) : bool :=
  match text with
  | EmptyString => false
  | String c' rest => Ascii.eqb c' c || contains_char c rest
  end.

Section clawimportlib.
Context `{ClawHost}.
(** [beartype._util.func.utilfunccodeobj.FUNC_CODEOBJ_NAME_MODULE]. *)
Variable FUNC_CODEOBJ_NAME_MODULE : string.

(** The branch [if package_names is None] of
    [beartype_submodules_on_import].  [frame_caller] is what [get_frame(1)]
    and [get_func_codeobj] give for the caller, or the exception one of
    them raises.  The branch ends on
    [frame_caller_module_name.rpartition()[0]]: [str.rpartition] takes
    exactly one argument, and called with none it raises [TypeError]. *)
Definition package_names_default (frame_caller : result frame)
    : result object :=
  caller ← frame_caller;
  if negb (String.eqb (co_name caller) FUNC_CODEOBJ_NAME_MODULE)
  then Raise BeartypeClawRegistrationException
  else if negb (contains_char "." (f_globals_name caller))
  then Raise BeartypeClawRegistrationException
  else Raise TypeError.

(** [beartype_submodules_on_import].  [package_names] is [None] or an
    object, tested for truth once and iterated over once; a string is not
    wrapped here, it is iterated by its characters.  [conf] is not read.
    The loop over the package names is the validation loop of
    [add_packages]. *)
Definition beartype_submodules_on_import (package_names : option object)
    (conf : BeartypeConf) (frame_caller : result frame)
    (sys : import_state) : result unit * import_state :=
  let names : result object :=
    match package_names with
    | Some names => Return names
    | None => package_names_default frame_caller
    end in
  match names with
  | Raise exc => (Raise exc, sys)
  | Return names =>
      if negb (isinstance_Iterable names)
      then (Raise BeartypeClawRegistrationException, sys)
      else if negb (bool_object names)
      then (Raise BeartypeClawRegistrationException, sys)
      else
        match iterate names with
        | Raise exc => (Raise exc, sys)
        | Return (items, _) =>
            match add_packages_validate items with
            | Raise exc => (Raise exc, sys)
            | Return _ =>
                (Return tt,
                 {| path_hooks := path_hook_beartype :: path_hooks sys;
                    path_importer_cache := ∅;
                    caches_invalidated := S (caches_invalidated sys) |})
            end
        end
  end.

End clawimportlib.

(** ** A concrete host

    One instance of the helpers above, following CPython's [typing] and the
    docstrings of the modules embedded here.  The theorems hold for every
    host; this one supplies the closed examples. *)

Module host.

(** The sign of a hint is the name of the attribute of [typing] (or of
    the builtin class) it was subscripted from. *)
Definition get_hint_pep_sign (hint : object) : string :=
  match hint with
  | TypingAttr name => name
  | Alias _ origin _ metadata =>
      match metadata with
      | [] => match origin with
              | TypingAttr name | Class name => name
              | _ => ""
              end
      | _ => "Annotated"
      end
  | _ => ""
  end.

(** A bare [typing.Annotated] is no hint: it takes at least two
    arguments. *)
Definition is_hint_pep (hint : object) : bool :=
  match hint with
  | TypingAttr name => bool_decide (name <> "Annotated")
  | Alias _ _ _ _ => true
  | _ => false
  end.

Definition is_hint_pep_supported (hint : object) : bool :=
  bool_decide (get_hint_pep_sign hint
                 ∈ ["Any"; "Union"; "Optional"; "Annotated"; "List"; "list"]).

Definition die_unless_hint_pep_supported (hint : object) (hint_label : string)
    : result unit :=
  if is_hint_pep_supported hint then Return tt
  else Raise BeartypeDecorHintPepUnsupportedException.

(** "a plain class, a fully-qualified class-name string (forward
    reference), or a fixed-size ordered collection of
    classes/forward-references". *)
Definition is_hint_nonpep (hint : object) (is_str_valid : bool) : bool :=
  let is_class_or_name (item : object) : bool :=
    match item with
    | Class _ => true
    | Str _ => is_str_valid
    | _ => false
    end in
  match hint with
  | Tuple [] => false
  | Tuple items => forallb is_class_or_name items
  | _ => is_class_or_name hint
  end.

Definition die_unless_hint_nonpep (hint : object) (hint_label : string)
    (is_str_valid : bool) : result unit :=
  if is_hint_nonpep hint is_str_valid then Return tt
  else Raise BeartypeDecorHintNonPepException.

Definition HINTS_SHALLOW_IGNORABLE (hint : object) : bool :=
  match hint with
  | Class name => bool_decide (name = "object")
  | TypingAttr name =>
      bool_decide (name ∈ ["Any"; "Generic"; "Optional"; "Union"])
  | _ => false
  end.

(** The members of a union: nested unions are flattened. *)
Definition union_members (param : object) : list object :=
  match param with
  | Alias _ (TypingAttr "Union") args [] => args
  | _ => [param]
  end.

(** Drop the members whose representation was seen before. *)
Fixpoint remove_dups (seen : list string) (params : list object)
    : list object :=
  match params with
  | [] => []
  | param :: rest =>
      if bool_decide (repr param ∈ seen) then remove_dups seen rest
      else param :: remove_dups (repr param :: seen) rest
  end.

(** [typing.Union.__getitem__]: no union of no types, every member is a
    type or the name of one, nested unions are flattened, duplicates are
    dropped, a union of one member is that member, and equal subscriptions
    share one object (here: the identity 0).  A string member stands for
    the forward reference [typing] wraps it in. *)
Definition Union_getitem (params : object) : result object :=
  let params :=
    match params with
    | Tuple items => items
    | _ => [params]
    end in
  let members := params ≫= union_members in
  let is_type (param : object) : bool :=
    match param with
    | Tuple _ | List _ | Iterator _ => false
    | _ => true
    end in
  if bool_decide (params = []) then Raise TypeError
  else if negb (forallb is_type members) then Raise TypeError
  else if negb (forallb is_hashable members) then Raise TypeError
  else
    match remove_dups [] members with
    | [param] => Return param
    | members => Return (Alias 0 (TypingAttr "Union") members [])
    end.

Definition hints : HintHost :=
  Build_HintHost string _
    is_hint_pep is_hint_pep_supported die_unless_hint_pep_supported
    is_hint_nonpep die_unless_hint_nonpep get_hint_pep_sign
    ["Optional"; "Union"] "Annotated" HINTS_SHALLOW_IGNORABLE
    Union_getitem.

(** [getattr(func, '__no_type_check__', False) is True]. *)
Definition is_func_pep484_notypechecked (func : callable) : bool :=
  match func !! "__no_type_check__" with
  | Some (VBool true) => true
  | _ => false
  end.

(** The state of the process is whether Sphinx's autodoc is running. *)
(** The types of CPython whose objects take no new attribute; a callable
    that does not list its [__class__] is a function. *)
Definition type_takes_attributes (cls : option value) : bool :=
  match cls with
  | Some (VObject (Class name)) =>
      negb (bool_decide
              (name ∈ ["builtin_function_or_method"; "method";
                       "method-wrapper"; "wrapper_descriptor"]))
  | _ => true
  end.

Definition funcs : FuncHost :=
  Build_FuncHost is_func_pep484_notypechecked bool
    (fun autodocing => autodocing) type_takes_attributes.

Definition is_identifier_start (c : ascii) : bool :=
  let n := nat_of_ascii c in
  (65 <=? n)%nat && (n <=? 90)%nat || (97 <=? n)%nat && (n <=? 122)%nat
  || (n =? 95)%nat.

Definition is_identifier_continue (c : ascii) : bool :=
  let n := nat_of_ascii c in
  is_identifier_start c || (48 <=? n)%nat && (n <=? 57)%nat.

Definition is_identifier_basename (text : string) : bool :=
  match text with
  | EmptyString => false
  | String c rest =>
      is_identifier_start c
      && forallb is_identifier_continue (list_ascii_of_string rest)
  end.

(** A "."-delimited concatenation of (ASCII) Python identifiers. *)
Definition is_identifier (text : string) : bool :=
  forallb is_identifier_basename (split "." text).

(** A configuration is its settings. *)
Record conf_settings : Type := { is_debug : bool; strategy : nat }.

#[local] Instance conf_settings_eq_dec : EqDecision conf_settings.
Proof. solve_decision. Defined.

Definition claw : ClawHost := Build_ClawHost conf_settings _ is_identifier.

(** Hints used in the examples. *)
Definition int : object := Class "int".
Definition str : object := Class "str".
Definition Any : object := TypingAttr "Any".
Definition Union (oid : nat) (args : list object) : object :=
  Alias oid (TypingAttr "Union") args [].
Definition list_of (oid : nat) (item : object) : object :=
  Alias oid (Class "list") [item] [].
Definition Annotated_of (oid : nat) (origin : object)
    (metadata : list object) : object :=
  Alias oid origin [origin] metadata.

(** A function [def f(pith_name: hint) -> None]. *)
Definition def_annotated (pith_name : string) (hint : object) : callable :=
  {[ "__annotations__" :=
       VDict {[ pith_name := hint; "return" := Class "NoneType" ]} ]}.

(** The function [def f(x: (int, str)) -> None]. *)
Definition f_x_int_str : callable := def_annotated "x" (Tuple [int; str]).


(** A callable object that declares no [__annotations__], as
    [functools.partial(print)]. *)
Definition partial_print : callable :=
  {[ "func" := VObject (Class "builtin_function_or_method") ]}.

End host.

(** * Properties *)

(** ** Results and objects *)

Lemma bind_Return_inv {A B : Type} (r : result A) (k : A -> result B)
    (b : B) :
  r ≫= k = Return b -> exists a, r = Return a /\ k a = Return b.
Proof. destruct r as [a|exc]; [eauto | discriminate]. Qed.

(** Induction on objects, with the hypothesis for every item of the lists
    nested in an object. *)
Lemma object_ind_nested (P : object -> Prop) :
  (forall name, P (Class name)) ->
  (forall text, P (Str text)) ->
  (forall items, Forall P items -> P (Tuple items)) ->
  (forall items, Forall P items -> P (List items)) ->
  (forall name, P (TypingAttr name)) ->
  (forall oid origin args metadata,
      P origin -> Forall P args -> Forall P metadata ->
      P (Alias oid origin args metadata)) ->
  (forall items, Forall P items -> P (Iterator items)) ->
  forall obj, P obj.
Proof.
  intros HClass HStr HTuple HList HAttr HAlias HIterator.
  fix IH 1.
  assert (IHs : forall items, Forall P items).
  { fix IHitems 1. intros [|item items]; constructor.
    - apply IH.
    - apply IHitems. }
  intros [name|text|items|items|name|oid origin args metadata|items].
  - apply HClass.
  - apply HStr.
  - apply HTuple, IHs.
  - apply HList, IHs.
  - apply HAttr.
  - apply HAlias; [apply IH | apply IHs | apply IHs].
  - apply HIterator, IHs.
Qed.

Lemma is_hashable_args (hint : object) :
  is_hashable hint = true ->
  Forall (fun child => is_hashable child = true) (get_hint_pep_args hint).
Proof.
  destruct hint as [| | | | |oid origin args metadata|]; simpl;
    try (intros _; constructor).
  intros Hhash. apply andb_prop in Hhash as [Hhash _].
  apply andb_prop in Hhash as [_ Hargs].
  apply Forall_forall. intros child Hin.
  rewrite forallb_forall in Hargs. by apply Hargs, list_elem_of_In.
Qed.

Lemma is_hashable_origin (hint origin : object) :
  is_hashable hint = true -> getattr_origin hint = Return origin ->
  is_hashable origin = true.
Proof.
  destruct hint as [| | | | |oid origin' args metadata|]; simpl;
    try discriminate.
  intros Hhash [= <-]. apply andb_prop in Hhash as [Hhash _].
  by apply andb_prop in Hhash as [Horigin _].
Qed.

Lemma frozenset_contains_hashable (members : object -> bool) (hint : object)
    (found : bool) :
  frozenset_contains members hint = Return found -> is_hashable hint = true.
Proof. unfold frozenset_contains. by destruct (is_hashable hint). Qed.

(** ** [utilhinttest]: [is_hint] and [die_unless_hint] *)

Section utilhinttest_facts.
Context `{HintHost}.

Lemma callable_cached_unhashable {A : Type} (hint : object)
    (body : result A) :
  is_hashable hint = false -> callable_cached [hint] body = Raise TypeError.
Proof. intros Hhash. unfold callable_cached. simpl. by rewrite Hhash. Qed.

Lemma callable_cached_hashable {A : Type} (hint : object) (body : result A) :
  is_hashable hint = true -> callable_cached [hint] body = body.
Proof. intros Hhash. unfold callable_cached. simpl. by rewrite Hhash. Qed.

(** A supported hint passes [die_unless_hint], whatever the label. *)
Lemma die_unless_hint_supported (hint : object) (hint_label : string)
    (is_str_valid : bool) :
  is_hint hint is_str_valid = Return true ->
  die_unless_hint hint hint_label is_str_valid = Return tt.
Proof. intros Hsupported. unfold die_unless_hint. by rewrite Hsupported. Qed.

(** [die_unless_hint] returns only for hashable objects. *)
Lemma die_unless_hint_hashable (hint : object) (hint_label : string)
    (is_str_valid : bool) :
  die_unless_hint hint hint_label is_str_valid = Return tt ->
  is_hashable hint = true.
Proof.
  unfold die_unless_hint, is_hint. destruct (is_hashable hint) eqn:Hhash;
    [done|]. by rewrite callable_cached_unhashable.
Qed.

End utilhinttest_facts.

(** C5. An unhashable object makes [is_hint] raise [TypeError], the
    hashability error, before its body runs; [die_unless_hint] calls
    [is_hint] first and so raises the same [TypeError], never one of the
    two exceptions for an unsupported hint. *)
Theorem is_hint_unhashable_TypeError `{HintHost} (hint : object)
    (hint_label : string) (is_str_valid : bool) :
  is_hashable hint = false ->
  is_hint hint is_str_valid = Raise TypeError
  /\ die_unless_hint hint hint_label is_str_valid = Raise TypeError
  /\ die_unless_hint hint hint_label is_str_valid
       <> Raise BeartypeDecorHintNonPepException
  /\ die_unless_hint hint hint_label is_str_valid
       <> Raise BeartypeDecorHintPepUnsupportedException.
Proof.
  intros Hhash.
  assert (His : is_hint hint is_str_valid = Raise TypeError)
    by (by apply callable_cached_unhashable).
  assert (Hdie : die_unless_hint hint hint_label is_str_valid
                 = Raise TypeError)
    by (unfold die_unless_hint; by rewrite His).
  rewrite Hdie. by repeat split.
Qed.

(** The list [[int]], a mutable collection, at the concrete host. *)
Lemma is_hint_unhashable_TypeError_witness :
  is_hashable (List [host.int]) = false
  /\ is_hint (H := host.hints) (List [host.int]) true = Raise TypeError
  /\ die_unless_hint (H := host.hints) (List [host.int]) "Annotated" true
     = Raise TypeError.
Proof.
  split; [reflexivity|].
  pose proof (is_hint_unhashable_TypeError (H := host.hints)
                (List [host.int]) "Annotated" true eq_refl) as (H1 & H2 & _).
  by split.
Defined.

(** ** [utilhinttest]: [is_hint_ignorable] *)

Section is_hint_ignorable_facts.
Context `{HintHost}.

(** The body of [is_hint_ignorable] as the source writes it. *)
Lemma is_hint_ignorable_unfold (hint : object) :
  is_hint_ignorable hint =
  callable_cached [hint]
    (shallow ← frozenset_contains HINTS_SHALLOW_IGNORABLE hint;
     if (shallow : bool) then Return true
     else if is_hint_pep hint then
       let hint_attr := get_hint_pep_sign hint in
       if bool_decide (hint_attr ∈ HINT_PEP_SIGNS_UNION) then
         any_result is_hint_ignorable (get_hint_pep_args hint)
       else if bool_decide (hint_attr = Annotated) then
         origin ← getattr_origin hint; is_hint_ignorable origin
       else Return false
     else Return false).
Proof. by destruct hint. Qed.

(** When no child raises, [any] is the disjunction over the children. *)
Lemma any_result_total (test : object -> result bool)
    (children : list object) :
  Forall (fun child => exists found, test child = Return found) children ->
  exists found, any_result test children = Return found
    /\ (found = true <->
        exists hint_child,
          hint_child ∈ children /\ test hint_child = Return true).
Proof.
  induction 1 as [|hint_child rest [found Htest] _ (found' & Hany & Hiff)];
    simpl.
  - exists false. split; [done|]. split; [discriminate|].
    intros (child & Hin & _). by apply elem_of_nil in Hin.
  - rewrite Htest. simpl. destruct found.
    + exists true. split; [done|]. split; [|done].
      intros _. exists hint_child. split; [left | done].
    + exists found'. split; [done|]. rewrite Hiff. split.
      * intros (child & Hin & Hchild). exists child. split; [by right|done].
      * intros (child & Hin & Hchild). apply elem_of_cons in Hin as [->|Hin].
        -- congruence.
        -- by exists child.
Qed.

(** On hashable hints [is_hint_ignorable] returns: nothing it hashes on
    the way down is unhashable, and every [__origin__] it reads exists. *)
Lemma is_hint_ignorable_total (hint : object) :
  Annotated_hints_have_origin ->
  is_hashable hint = true ->
  exists ignorable, is_hint_ignorable hint = Return ignorable.
Proof.
  intros Horigin. induction hint as
    [name|text|items _|items _|name|oid origin args metadata IHorigin IHargs _
    |items _]
    using object_ind_nested; intros Hhash;
    rewrite is_hint_ignorable_unfold, callable_cached_hashable by done;
    unfold frozenset_contains; rewrite Hhash; simpl;
    (destruct (HINTS_SHALLOW_IGNORABLE _); [by exists true|]);
    (destruct (is_hint_pep _) eqn:Hpep; [|by exists false]);
    (case_bool_decide as Hunion;
     [|case_bool_decide as Hsign; [|by exists false]]);
    try (by exists false);
    try (by destruct (Horigin _ Hpep Hsign) as [origin' [=]]).
  - (* a union subscription *)
    pose proof (is_hashable_args _ Hhash) as Hargs. simpl in Hargs.
    destruct (any_result_total is_hint_ignorable args) as (found & -> & _);
      [|by exists found].
    apply Forall_forall. intros child Hin.
    rewrite Forall_forall in IHargs, Hargs. by apply IHargs; [|apply Hargs].
  - (* an annotated subscription *)
    apply IHorigin.
    by apply (is_hashable_origin (Alias oid origin args metadata)).
Qed.

(** [any] returns [True] only when some child tested [True]. *)
Lemma any_result_true_inv (test : object -> result bool)
    (children : list object) :
  any_result test children = Return true ->
  exists hint_child, hint_child ∈ children /\ test hint_child = Return true.
Proof.
  induction children as [|hint_child rest IH]; simpl; [discriminate|].
  destruct (test hint_child) as [[|]|exc] eqn:Htest; simpl.
  - intros _. exists hint_child. split; [left | done].
  - intros Hrest. destruct (IH Hrest) as (child & Hin & Hchild).
    exists child. split; [by right | done].
  - discriminate.
Qed.

Lemma is_hint_ignorable_hashable (hint : object) (ignorable : bool) :
  is_hint_ignorable hint = Return ignorable -> is_hashable hint = true.
Proof.
  rewrite is_hint_ignorable_unfold.
  destruct (is_hashable hint) eqn:Hhash; [done|].
  by rewrite callable_cached_unhashable.
Qed.

(** Whatever [is_hint_ignorable] accepts is ignorable by the rules. *)
Lemma is_hint_ignorable_sound (hint : object) :
  is_hint_ignorable hint = Return true -> deeply_ignorable hint.
Proof.
  induction hint as
    [name|text|items _|items _|name|oid origin args metadata IHorigin IHargs _
    |items _]
    using object_ind_nested; intros Hignorable;
    pose proof (is_hint_ignorable_hashable _ _ Hignorable) as Hhash;
    rewrite is_hint_ignorable_unfold, callable_cached_hashable in Hignorable
      by done;
    unfold frozenset_contains in Hignorable; rewrite Hhash in Hignorable;
    simpl in Hignorable;
    (destruct (HINTS_SHALLOW_IGNORABLE _) eqn:Hshallow;
     [by apply ignorable_shallow|]);
    (destruct (is_hint_pep _) eqn:Hpep; [|discriminate]);
    (case_bool_decide as Hunion;
     [|case_bool_decide as Hsign; [|discriminate]]);
    try discriminate.
  - apply any_result_true_inv in Hignorable as (child & Hin & Hchild).
    apply (ignorable_union _ child); [done..|].
    rewrite Forall_forall in IHargs. by apply IHargs.
  - by apply (ignorable_annotated _ origin); [..|apply IHorigin].
Qed.

(** Whatever is ignorable by the rules and hashable is accepted. *)
Lemma is_hint_ignorable_complete (hint : object) :
  Annotated_hints_have_origin ->
  deeply_ignorable hint -> is_hashable hint = true ->
  is_hint_ignorable hint = Return true.
Proof.
  intros Horigin.
  induction 1 as [hint Hshallow
                 |hint child Hpep Hunion Hin _ IH
                 |hint origin Hpep Hunion Hsign Hgetattr _ IH];
    intros Hhash;
    rewrite is_hint_ignorable_unfold, callable_cached_hashable by done;
    unfold frozenset_contains; rewrite Hhash; simpl.
  - by rewrite Hshallow.
  - destruct (HINTS_SHALLOW_IGNORABLE hint); [done|].
    rewrite Hpep, bool_decide_true by done.
    pose proof (is_hashable_args _ Hhash) as Hargs.
    destruct (any_result_total is_hint_ignorable (get_hint_pep_args hint))
      as (found & -> & Hfound).
    + eapply Forall_impl; [exact Hargs|]. simpl.
      intros. by apply is_hint_ignorable_total.
    + f_equal. apply Hfound. exists child. split; [done|].
      apply IH. rewrite Forall_forall in Hargs. by apply Hargs.
  - destruct (HINTS_SHALLOW_IGNORABLE hint); [done|].
    rewrite Hpep, bool_decide_false, bool_decide_true by done.
    rewrite Hgetattr. simpl. apply IH. by eapply is_hashable_origin.
Qed.

End is_hint_ignorable_facts.

(** C3. A PEP-compliant hint that is not shallowly ignorable and whose sign
    is a union sign is ignorable if and only if at least one of its child
    hints is ignorable: [is_hint_ignorable] returns for it, and returns
    [True] exactly when it returns [True] for one of the child hints, which
    is exactly when one of the child hints is ignorable by the rules of
    the docstring; for each child hint it returns, and returns [True]
    exactly when that child is ignorable by these rules. *)
Theorem is_hint_ignorable_union_iff_any_child `{HintHost} (hint : object) :
  Annotated_hints_have_origin ->
  frozenset_contains HINTS_SHALLOW_IGNORABLE hint = Return false ->
  is_hint_pep hint = true ->
  get_hint_pep_sign hint ∈ HINT_PEP_SIGNS_UNION ->
  exists ignorable,
    is_hint_ignorable hint = Return ignorable
    /\ (ignorable = true <->
        exists hint_child,
          hint_child ∈ get_hint_pep_args hint
          /\ is_hint_ignorable hint_child = Return true)
    /\ (ignorable = true <->
        exists hint_child,
          hint_child ∈ get_hint_pep_args hint
          /\ deeply_ignorable hint_child)
    /\ (forall hint_child,
          hint_child ∈ get_hint_pep_args hint ->
          exists child_ignorable,
            is_hint_ignorable hint_child = Return child_ignorable
            /\ (child_ignorable = true <-> deeply_ignorable hint_child)).
Proof.
  intros Horigin Hshallow Hpep Hunion.
  pose proof (frozenset_contains_hashable _ _ _ Hshallow) as Hhash.
  pose proof (is_hashable_args _ Hhash) as Hargs.
  rewrite Forall_forall in Hargs.
  assert (Hchildren : forall hint_child,
            hint_child ∈ get_hint_pep_args hint ->
            exists child_ignorable,
              is_hint_ignorable hint_child = Return child_ignorable
              /\ (child_ignorable = true <-> deeply_ignorable hint_child)).
  { intros child Hin. pose proof (Hargs child Hin) as Hchild.
    destruct (is_hint_ignorable_total child Horigin Hchild)
      as [child_ignorable Heq].
    exists child_ignorable. split; [done|]. split.
    - intros ->. by apply is_hint_ignorable_sound.
    - intros Hdeep.
      rewrite (is_hint_ignorable_complete child Horigin Hdeep Hchild)
        in Heq. congruence. }
  rewrite is_hint_ignorable_unfold, callable_cached_hashable by done.
  rewrite Hshallow. simpl. rewrite Hpep, bool_decide_true by done.
  destruct (any_result_total is_hint_ignorable (get_hint_pep_args hint))
    as (ignorable & Hany & Hiff).
  { apply Forall_forall. intros child Hin.
    destruct (Hchildren child Hin) as (child_ignorable & Heq & _).
    by exists child_ignorable. }
  exists ignorable. split; [done|]. split; [done|]. split; [|done].
  rewrite Hiff. split.
  - intros (child & Hin & Hchild). exists child. split; [done|].
    by apply is_hint_ignorable_sound.
  - intros (child & Hin & Hdeep). exists child. split; [done|].
    apply is_hint_ignorable_complete; [done..|]. by apply Hargs.
Qed.

Lemma host_Annotated_hints_have_origin :
  Annotated_hints_have_origin (H := host.hints).
Proof.
  intros [name|text|items|items|name|oid origin args metadata|items]
    Hpep Hsign;
    try discriminate.
  - simpl in Hpep, Hsign. by case_bool_decide.
  - by exists origin.
Qed.

(** [Union[Any, int]] at the concrete host is ignorable, [Any] being of
    the shallow set; [Union[int, str]] is not. *)
Lemma is_hint_ignorable_union_iff_any_child_witness :
  is_hint_ignorable (H := host.hints) (host.Union 0 [host.Any; host.int])
  = Return true
  /\ is_hint_ignorable (H := host.hints) (host.Union 0 [host.int; host.str])
     = Return false.
Proof.
  split.
  - destruct (is_hint_ignorable_union_iff_any_child (H := host.hints)
                (host.Union 0 [host.Any; host.int]))
      as (ignorable & Heq & _ & Hdeep & _).
    + apply host_Annotated_hints_have_origin.
    + reflexivity.
    + reflexivity.
    + simpl. apply list_elem_of_In. simpl. tauto.
    + rewrite Heq. f_equal. apply Hdeep. exists host.Any.
      split; [left|]. by apply ignorable_shallow.
  - destruct (is_hint_ignorable_union_iff_any_child (H := host.hints)
                (host.Union 0 [host.int; host.str]))
      as (ignorable & Heq & Hany & _).
    + apply host_Annotated_hints_have_origin.
    + reflexivity.
    + reflexivity.
    + simpl. apply list_elem_of_In. simpl. tauto.
    + rewrite Heq. f_equal. destruct ignorable; [|reflexivity].
      destruct Hany as [Hany _].
      destruct (Hany eq_refl) as (child & Hin & Hchild).
      apply list_elem_of_In in Hin.
      destruct Hin as [<-|[<-|[]]]; discriminate Hchild.
Defined.

(** "A disjunction containing one maximally-wide branch and one narrow
    branch is ignorable; a disjunction of two narrow branches is not." *)
Example is_hint_ignorable_Union_Any_int :
  is_hint_ignorable (H := host.hints) (host.Union 0 [host.Any; host.int])
  = Return true
  /\ is_hint_ignorable (H := host.hints) (host.Union 0 [host.int; host.Any])
     = Return true
  /\ is_hint_ignorable (H := host.hints) (host.Union 0 [host.int; host.str])
     = Return false.
Proof. repeat split; vm_compute; reflexivity. Qed.

(** C7. A PEP-compliant hint that is not shallowly ignorable and whose sign
    is [Annotated] (which is no union sign) is ignorable exactly when its
    [__origin__] is: the two calls have the same result.  Hence two such
    hints over one origin, whatever their metadata, have the same result.
    When every annotated hint has an [__origin__], the call returns, and
    returns [True] exactly when the origin is ignorable by the rules of
    the docstring. *)
Theorem is_hint_ignorable_annotated_origin `{HintHost}
    (hint origin : object) :
  Annotated ∉ HINT_PEP_SIGNS_UNION ->
  frozenset_contains HINTS_SHALLOW_IGNORABLE hint = Return false ->
  is_hint_pep hint = true ->
  get_hint_pep_sign hint = Annotated ->
  getattr_origin hint = Return origin ->
  is_hint_ignorable hint = is_hint_ignorable origin
  /\ (is_hint_ignorable hint = Return true
      <-> is_hint_ignorable origin = Return true)
  /\ (forall oid args metadata,
       let other := Alias oid origin args metadata in
       frozenset_contains HINTS_SHALLOW_IGNORABLE other = Return false ->
       is_hint_pep other = true ->
       get_hint_pep_sign other = Annotated ->
       is_hint_ignorable other = is_hint_ignorable hint)
  /\ (is_hint_ignorable hint = Return true -> deeply_ignorable origin)
  /\ (Annotated_hints_have_origin ->
      exists ignorable,
        is_hint_ignorable hint = Return ignorable
        /\ (ignorable = true <-> deeply_ignorable origin)).
Proof.
  intros Hnot_union.
  assert (Hstep : forall hint' origin',
    frozenset_contains HINTS_SHALLOW_IGNORABLE hint' = Return false ->
    is_hint_pep hint' = true -> get_hint_pep_sign hint' = Annotated ->
    getattr_origin hint' = Return origin' ->
    is_hint_ignorable hint' = is_hint_ignorable origin').
  { intros hint' origin' Hshallow Hpep Hsign Horigin.
    pose proof (frozenset_contains_hashable _ _ _ Hshallow) as Hhash.
    rewrite (is_hint_ignorable_unfold hint').
    rewrite callable_cached_hashable, Hshallow by done. simpl.
    rewrite Hpep, Hsign, bool_decide_false, bool_decide_true by done.
    by rewrite Horigin. }
  intros Hshallow Hpep Hsign Horigin.
  pose proof (Hstep _ _ Hshallow Hpep Hsign Horigin) as Heq.
  split; [done|]. split; [by rewrite Heq|]. split; [|split].
  - intros oid args metadata other Hshallow' Hpep' Hsign'.
    rewrite Heq. by apply Hstep.
  - rewrite Heq. apply is_hint_ignorable_sound.
  - intros Hhave.
    assert (Hhash : is_hashable origin = true).
    { apply (is_hashable_origin hint); [|done].
      by eapply frozenset_contains_hashable. }
    rewrite Heq.
    destruct (is_hint_ignorable_total origin Hhave Hhash)
      as [ignorable Horigin_eq].
    exists ignorable. split; [done|]. split.
    + intros ->. by apply is_hint_ignorable_sound.
    + intros Hdeep.
      rewrite (is_hint_ignorable_complete origin Hhave Hdeep Hhash)
        in Horigin_eq. congruence.
Qed.

(** [Annotated[Any, 'metadata']] at the concrete host is ignorable, [Any]
    being of the shallow set; [Annotated[int, 'metadata']] is what [int]
    is, whatever the metadata. *)
Lemma is_hint_ignorable_annotated_origin_witness :
  is_hint_ignorable (H := host.hints)
    (host.Annotated_of 0 host.Any [Str "metadata"]) = Return true
  /\ is_hint_ignorable (H := host.hints)
       (host.Annotated_of 0 host.int [Str "metadata"])
     = is_hint_ignorable (H := host.hints) host.int
  /\ is_hint_ignorable (H := host.hints)
       (host.Annotated_of 0 host.int [Str "other"; host.str])
     = is_hint_ignorable (H := host.hints)
         (host.Annotated_of 0 host.int [Str "metadata"]).
Proof.
  assert (Hnot_union : Annotated (HintHost := host.hints)
                       ∉ HINT_PEP_SIGNS_UNION (HintHost := host.hints)).
  { simpl. intros Hin. apply list_elem_of_In in Hin. simpl in Hin.
    by destruct Hin as [|[|[]]]. }
  split.
  - destruct (is_hint_ignorable_annotated_origin (H := host.hints)
                (host.Annotated_of 0 host.Any [Str "metadata"]) host.Any)
      as (_ & _ & _ & _ & Hdecides).
    + exact Hnot_union.
    + reflexivity.
    + reflexivity.
    + reflexivity.
    + reflexivity.
    + destruct (Hdecides host_Annotated_hints_have_origin)
        as (ignorable & Heq & Hiff).
      rewrite Heq. f_equal. apply Hiff. by apply ignorable_shallow.
  - destruct (is_hint_ignorable_annotated_origin (H := host.hints)
                (host.Annotated_of 0 host.int [Str "metadata"]) host.int)
      as (Heq & _ & Hmetadata & _).
    + exact Hnot_union.
    + reflexivity.
    + reflexivity.
    + reflexivity.
    + reflexivity.
    + split; [exact Heq|].
      apply (Hmetadata 0 [host.int] [Str "other"; host.str]); reflexivity.
Defined.

(** "A metadata-wrapped hint over a narrow type is not ignorable; over a
    maximally-wide type, is ignorable."  A hint with unhashable metadata
    is no input of the membership test: hashing it raises. *)
Example is_hint_ignorable_Annotated_int_Any :
  is_hint_ignorable (H := host.hints)
    (host.Annotated_of 0 host.int [Str "metadata"]) = Return false
  /\ is_hint_ignorable (H := host.hints)
       (host.Annotated_of 0 host.Any [Str "metadata"]) = Return true
  /\ is_hint_ignorable (H := host.hints)
       (host.Annotated_of 0 host.Any [List []]) = Raise TypeError.
Proof. repeat split; vm_compute; reflexivity. Qed.

(** ** [cachehint]: [cache_hint_nonpep563] *)

Section cachehint_facts.
Context `{HintHost}.

(** A hint that is no tuple is validated and returned as it is; neither
    the callable nor [_HINT_REPR_TO_HINT] is touched. *)
Lemma cache_hint_nonpep563_not_tuple (func : callable) (pith_name : string)
    (hint : object) (hint_label : string) (cache : gmap string object) :
  isinstance_tuple hint = false ->
  cache_hint_nonpep563 func pith_name hint hint_label cache
  = {| returned := die_unless_hint hint hint_label true;; Return hint;
       func_after := func;
       _HINT_REPR_TO_HINT_after := cache |}.
Proof. intros Htuple. unfold cache_hint_nonpep563. by rewrite Htuple. Qed.

(** No call reads or writes [_HINT_REPR_TO_HINT]. *)
Lemma cache_hint_nonpep563_cache_untouched (func : callable)
    (pith_name : string) (hint : object) (hint_label : string)
    (cache : gmap string object) :
  _HINT_REPR_TO_HINT_after
    (cache_hint_nonpep563 func pith_name hint hint_label cache) = cache.
Proof. reflexivity. Qed.

(** The hint returned is the hint passed or the union made of it, and it
    passed [die_unless_hint]. *)
Lemma cache_hint_nonpep563_returned (func : callable) (pith_name : string)
    (hint resolved : object) (hint_label : string)
    (cache : gmap string object) :
  returned (cache_hint_nonpep563 func pith_name hint hint_label cache)
  = Return resolved ->
  die_unless_hint resolved hint_label true = Return tt
  /\ (if isinstance_tuple hint then Union_getitem hint = Return resolved
      else resolved = hint).
Proof.
  unfold cache_hint_nonpep563. simpl.
  destruct (isinstance_tuple hint); simpl.
  - destruct (Union_getitem hint) as [union|exc]; [|discriminate].
    destruct (setitem_annotations func pith_name union) as [func'|exc];
      [|discriminate]. simpl.
    destruct (die_unless_hint union hint_label true) as [[]|exc] eqn:Hdie;
      [|discriminate]. simpl. intros [= <-]. by rewrite Hdie.
  - destruct (die_unless_hint hint hint_label true) as [[]|exc] eqn:Hdie;
      [|discriminate]. simpl. intros [= <-]. by rewrite Hdie.
Qed.

End cachehint_facts.

(** C2. For a tuple [hint] that [Union] accepts, and a callable that has
    its [__annotations__], the slot [pith_name] holds the union of the
    members of [hint] after the call whether or not [die_unless_hint] then
    raises; the call returns what [die_unless_hint] lets it return, which
    is that union when the union is supported. *)
Theorem cache_hint_nonpep563_tuple_union `{HintHost} (func : callable)
    (pith_name : string) (hint union : object) (hint_label : string)
    (annotations cache : gmap string object) :
  isinstance_tuple hint = true ->
  Union_getitem hint = Return union ->
  func !! "__annotations__" = Some (VDict annotations) ->
  let out := cache_hint_nonpep563 func pith_name hint hint_label cache in
  func_after out
  = <["__annotations__" := VDict (<[pith_name := union]> annotations)]> func
  /\ annotation_slot (func_after out) pith_name = Some union
  /\ returned out = (die_unless_hint union hint_label true;; Return union)
  /\ (die_unless_hint union hint_label true = Return tt ->
      returned out = Return union).
Proof.
  intros Htuple Hunion Hannotations out.
  assert (Hset : setitem_annotations func pith_name union
                 = Return (<["__annotations__" :=
                              VDict (<[pith_name := union]> annotations)]>
                             func)).
  { unfold setitem_annotations, getattr. by rewrite Hannotations. }
  assert (Hafter : func_after out
                   = <["__annotations__" :=
                        VDict (<[pith_name := union]> annotations)]> func).
  { unfold out, cache_hint_nonpep563. by rewrite Htuple, Hunion, Hset. }
  assert (Hreturned : returned out
                      = (die_unless_hint union hint_label true;;
                         Return union)).
  { unfold out, cache_hint_nonpep563. by rewrite Htuple, Hunion, Hset. }
  split; [done|]. split.
  - rewrite Hafter. unfold annotation_slot.
    by rewrite lookup_insert_eq, lookup_insert_eq.
  - split; [done|]. intros Hdie. by rewrite Hreturned, Hdie.
Qed.

(** [def f(x: (int, str)) -> None] at the concrete host: the slot [x] and
    the hint returned are [Union[int, str]]. *)
Lemma cache_hint_nonpep563_tuple_union_witness :
  let out :=
    cache_hint_nonpep563 (H := host.hints) host.f_x_int_str "x"
      (Tuple [host.int; host.str]) "Parameter x" ∅ in
  annotation_slot (func_after out) "x"
  = Some (host.Union 0 [host.int; host.str])
  /\ returned out = Return (host.Union 0 [host.int; host.str]).
Proof.
  destruct (cache_hint_nonpep563_tuple_union (H := host.hints)
              host.f_x_int_str "x" (Tuple [host.int; host.str])
              (host.Union 0 [host.int; host.str]) "Parameter x"
              {[ "x" := Tuple [host.int; host.str];
                 "return" := Class "NoneType" ]} ∅)
    as (_ & Hslot & _ & Hreturned).
  - reflexivity.
  - reflexivity.
  - reflexivity.
  - split; [exact Hslot|]. apply Hreturned. reflexivity.
Defined.

(** The slot is overwritten before the validation: a tuple holding a
    union that the host does not support leaves that union in the slot
    although the call raises. *)
Example cache_hint_nonpep563_overwrites_then_raises :
  let out :=
    cache_hint_nonpep563 (H := host.hints) host.f_x_int_str "x"
      (Tuple [TypingAttr "NoReturn"]) "Parameter x" ∅ in
  annotation_slot (func_after out) "x" = Some (TypingAttr "NoReturn")
  /\ returned out = Raise BeartypeDecorHintPepUnsupportedException.
Proof. split; vm_compute; reflexivity. Qed.

(** C4. When a call returns a hint, the next call on that hint, with the
    callable and the cache as the first call left them, returns the very
    same hint and changes nothing; and any call on a supported hint that is
    no tuple returns that hint and changes nothing. *)
Theorem cache_hint_nonpep563_idempotent `{HintHost} (func : callable)
    (pith_name : string) (hint resolved : object) (hint_label : string)
    (cache : gmap string object) :
  (forall params union,
      Union_getitem params = Return union ->
      isinstance_tuple union = false) ->
  let out := cache_hint_nonpep563 func pith_name hint hint_label cache in
  returned out = Return resolved ->
  cache_hint_nonpep563 (func_after out) pith_name resolved hint_label
    (_HINT_REPR_TO_HINT_after out)
  = {| returned := Return resolved;
       func_after := func_after out;
       _HINT_REPR_TO_HINT_after := _HINT_REPR_TO_HINT_after out |}
  /\ forall func' pith_name' hint_label' cache',
       cache_hint_nonpep563 func' pith_name' resolved hint_label cache'
       = {| returned := Return resolved;
            func_after := func';
            _HINT_REPR_TO_HINT_after := cache' |}
       /\ (is_hint resolved true = Return true ->
           cache_hint_nonpep563 func' pith_name' resolved hint_label' cache'
           = {| returned := Return resolved;
                func_after := func';
                _HINT_REPR_TO_HINT_after := cache' |}).
Proof.
  intros Hunion out Hreturned.
  apply cache_hint_nonpep563_returned in Hreturned as [Hdie Hcase].
  assert (Htuple : isinstance_tuple resolved = false).
  { destruct (isinstance_tuple hint) eqn:Hhint.
    - by eapply Hunion.
    - by subst resolved. }
  assert (Hnoop : forall func' pith_name' cache',
    cache_hint_nonpep563 func' pith_name' resolved hint_label cache'
    = {| returned := Return resolved;
         func_after := func';
         _HINT_REPR_TO_HINT_after := cache' |}).
  { intros. rewrite cache_hint_nonpep563_not_tuple by done.
    by rewrite Hdie. }
  split; [apply Hnoop|].
  intros func' pith_name' hint_label' cache'. split; [apply Hnoop|].
  intros Hsupported. rewrite cache_hint_nonpep563_not_tuple by done.
  by rewrite (die_unless_hint_supported _ _ _ Hsupported).
Qed.

Lemma host_remove_dups_subseteq (seen : list string) (params : list object)
    (param : object) :
  param ∈ host.remove_dups seen params -> param ∈ params.
Proof.
  revert seen. induction params as [|first rest IH]; intros seen; simpl;
    [done|].
  case_bool_decide.
  - intros Hin. right. by eapply IH.
  - intros [->|Hin]%elem_of_cons; [left | right; by eapply IH].
Qed.

Lemma host_Union_getitem_not_tuple (params union : object) :
  host.Union_getitem params = Return union -> isinstance_tuple union = false.
Proof.
  unfold host.Union_getitem.
  set (items := match params with Tuple items => items | _ => [params] end).
  set (members := items ≫= host.union_members).
  destruct (bool_decide (items = [])); [discriminate|].
  match goal with
  | |- context [forallb ?f members] =>
      destruct (forallb f members) eqn:Htypes; [|discriminate]
  end. simpl.
  destruct (forallb is_hashable members); [|discriminate]. simpl.
  destruct (host.remove_dups [] members) as [|param [|second rest]] eqn:Hdups;
    intros [= <-]; try reflexivity.
  assert (Hin : param ∈ members).
  { apply (host_remove_dups_subseteq []). rewrite Hdups. left. }
  rewrite forallb_forall in Htypes.
  apply list_elem_of_In, Htypes in Hin. by destruct param.
Qed.

(** [def f(x: (int, str)) -> None] at the concrete host: the union
    returned by the first call is returned again by the second. *)
Lemma cache_hint_nonpep563_idempotent_witness :
  let out :=
    cache_hint_nonpep563 (H := host.hints) host.f_x_int_str "x"
      (Tuple [host.int; host.str]) "Parameter x" ∅ in
  returned out = Return (host.Union 0 [host.int; host.str])
  /\ cache_hint_nonpep563 (H := host.hints) (func_after out) "x"
       (host.Union 0 [host.int; host.str]) "Parameter x"
       (_HINT_REPR_TO_HINT_after out)
     = {| returned := Return (host.Union 0 [host.int; host.str]);
          func_after := func_after out;
          _HINT_REPR_TO_HINT_after := _HINT_REPR_TO_HINT_after out |}.
Proof.
  split; [reflexivity|].
  destruct (cache_hint_nonpep563_idempotent (H := host.hints)
              host.f_x_int_str "x" (Tuple [host.int; host.str])
              (host.Union 0 [host.int; host.str]) "Parameter x" ∅)
    as [Hagain _].
  - exact host_Union_getitem_not_tuple.
  - reflexivity.
  - exact Hagain.
Defined.

Section cachehint_no_dedup.
Context `{HintHost}.

(** Two distinct hints that are no tuples are never unified: each
    successful call returns the object it was passed, whatever the
    representations, and [_HINT_REPR_TO_HINT] is left as it was. *)
Lemma cache_hint_nonpep563_keeps_instances (func1 func2 : callable)
    (pith1 pith2 : string) (hint1 hint2 resolved1 resolved2 : object)
    (label1 label2 : string) (cache : gmap string object) :
  isinstance_tuple hint1 = false -> isinstance_tuple hint2 = false ->
  let out1 := cache_hint_nonpep563 func1 pith1 hint1 label1 cache in
  let out2 := cache_hint_nonpep563 func2 pith2 hint2 label2
                (_HINT_REPR_TO_HINT_after out1) in
  returned out1 = Return resolved1 -> returned out2 = Return resolved2 ->
  resolved1 = hint1 /\ resolved2 = hint2
  /\ _HINT_REPR_TO_HINT_after out2 = cache.
Proof.
  intros Htuple1 Htuple2 out1 out2 Hout1 Hout2.
  apply cache_hint_nonpep563_returned in Hout1 as [_ Hout1].
  apply cache_hint_nonpep563_returned in Hout2 as [_ Hout2].
  rewrite Htuple1 in Hout1. rewrite Htuple2 in Hout2. done.
Qed.

End cachehint_no_dedup.

(** C1, at the failing input.  [f(x: list[int])] and [g(y: list[int])]
    written with two subscriptions of [list]: the two hints have one
    representation and are two objects; the first call returns the first
    object and the second call the second, and [_HINT_REPR_TO_HINT] is
    empty before, between and after the calls. *)
Theorem cache_hint_nonpep563_does_not_dedup :
  let hint1 := host.list_of 1 host.int in
  let hint2 := host.list_of 2 host.int in
  let out1 :=
    cache_hint_nonpep563 (H := host.hints) (host.def_annotated "x" hint1)
      "x" hint1 "Parameter x" ∅ in
  let out2 :=
    cache_hint_nonpep563 (H := host.hints) (host.def_annotated "y" hint2)
      "y" hint2 "Parameter y" (_HINT_REPR_TO_HINT_after out1) in
  repr hint1 = repr hint2
  /\ hint1 <> hint2
  /\ returned out1 = Return hint1
  /\ returned out2 = Return hint2
  /\ returned out1 <> returned out2
  /\ annotation_slot (func_after out2) "y" = Some hint2
  /\ _HINT_REPR_TO_HINT_after out1 = ∅
  /\ _HINT_REPR_TO_HINT_after out2 = ∅.
Proof.
  repeat split; try reflexivity; try discriminate.
Qed.

(** ** [utilbeartypefunc]: the marker of beartype-generated wrappers *)

Lemma is_func_beartyped_spec (func : callable) :
  is_func_beartyped func = true <-> is_Some (func !! "__beartype_wrapper").
Proof. unfold is_func_beartyped, hasattr. apply bool_decide_eq_true. Qed.

Section marker_facts.
Context `{HintHost} `{FuncHost}.

(** A [set_func_beartyped] that returns has set the marker and nothing
    else. *)
Lemma set_func_beartyped_Return (func marked : callable) :
  set_func_beartyped func = Return marked ->
  type_takes_attributes (func !! "__class__") = true
  /\ marked = <["__beartype_wrapper" := VBool true]> func
  /\ is_func_beartyped marked = true
  /\ marked !! "__class__" = func !! "__class__".
Proof.
  unfold set_func_beartyped, setattr_checked, setattr.
  destruct (type_takes_attributes (func !! "__class__")); [|discriminate].
  intros [= <-]. split; [done|]. split; [done|]. split.
  - apply is_func_beartyped_spec. rewrite lookup_insert_eq. by eexists.
  - by rewrite lookup_insert_ne.
Qed.

(** [set_func_beartyped] returns for the callables whose type takes
    attributes, and raises [AttributeError] for the others. *)
Lemma set_func_beartyped_takes_attributes (func : callable) :
  set_func_beartyped func
  = if type_takes_attributes (func !! "__class__")
    then Return (<["__beartype_wrapper" := VBool true]> func)
    else Raise AttributeError.
Proof. reflexivity. Qed.

(** [cache_hint_nonpep563] assigns to [__annotations__] only. *)
Lemma cache_hint_nonpep563_other_attrs (func : callable)
    (pith_name : string) (hint : object) (hint_label : string)
    (cache : gmap string object) (name : string) :
  name <> "__annotations__" ->
  func_after (cache_hint_nonpep563 func pith_name hint hint_label cache)
    !! name = func !! name.
Proof.
  intros Hname. unfold cache_hint_nonpep563. simpl.
  destruct (isinstance_tuple hint); [|done].
  destruct (Union_getitem hint) as [union|exc]; [|done].
  unfold setitem_annotations, getattr.
  destruct (func !! "__annotations__") as [[| |items|]|]; simpl; try done.
  unfold setattr. by rewrite lookup_insert_ne.
Qed.

(** No call changes the type of the callable. *)
Lemma call_effect_class (func : callable) (c : call) :
  call_effect func c !! "__class__" = func !! "__class__".
Proof.
  destruct c as [| | |pith_name hint hint_label]; [done | done | |].
  - unfold call_effect.
    destruct (set_func_beartyped func) as [marked|exc] eqn:Hset; [|done].
    by apply set_func_beartyped_Return in Hset as (_ & _ & _ & ->).
  - unfold call_effect. by rewrite cache_hint_nonpep563_other_attrs.
Qed.

Lemma calls_effect_class (func : callable) (calls : list call) :
  calls_effect func calls !! "__class__" = func !! "__class__".
Proof.
  unfold calls_effect. revert func.
  induction calls as [|c rest IH]; intros func; simpl; [done|].
  by rewrite IH, call_effect_class.
Qed.

(** Every call but a [set_func_beartyped] that returns leaves the marker
    as it is. *)
Lemma call_effect_marker (func : callable) (c : call) :
  is_func_beartyped (call_effect func c)
  = match c with
    | call_set_func_beartyped =>
        is_func_beartyped func
        || type_takes_attributes (func !! "__class__")
    | _ => is_func_beartyped func
    end.
Proof.
  destruct c as [| | |pith_name hint hint_label]; [done | done | |].
  - unfold call_effect. rewrite set_func_beartyped_takes_attributes.
    destruct (type_takes_attributes (func !! "__class__")).
    + rewrite orb_true_r. apply is_func_beartyped_spec.
      rewrite lookup_insert_eq. by eexists.
    + by rewrite orb_false_r.
  - unfold call_effect, is_func_beartyped, hasattr.
    by rewrite cache_hint_nonpep563_other_attrs.
Qed.

(** The marker is there after some calls exactly when it was there before
    them or one of them is a [set_func_beartyped] on a callable whose type
    takes attributes. *)
Lemma calls_effect_marker (func : callable) (calls : list call) :
  is_func_beartyped (calls_effect func calls) = true
  <-> is_func_beartyped func = true
      \/ (call_set_func_beartyped ∈ calls
          /\ type_takes_attributes (func !! "__class__") = true).
Proof.
  unfold calls_effect. revert func.
  induction calls as [|c rest IH]; intros func; simpl.
  - split; [by left|]. intros [Hmarked|[Hin _]]; [done|].
    by apply elem_of_nil in Hin.
  - rewrite IH, call_effect_marker, call_effect_class. split.
    + intros [Hmarked|[Hin Htakes]]; [|right; split; [by right | done]].
      destruct c; try (by left).
      apply orb_prop in Hmarked as [Hmarked|Htakes]; [by left|].
      right. split; [left | done].
    + intros [Hmarked|[[<-|Hin]%elem_of_cons Htakes]].
      * left. destruct c; try done. by rewrite Hmarked.
      * left. by rewrite Htakes, orb_true_r.
      * by right.
Qed.

End marker_facts.




(** ** [utilbeartypefunc]: [is_func_unbeartypeable] *)

Lemma truthy_annotations_unannotated (func : callable) :
  annotations_is_dict func ->
  truthy (getattr_default func "__annotations__" VNone) = false
  <-> unannotated func.
Proof.
  intros Hdict. unfold getattr_default, unannotated, annotation_slot.
  destruct (func !! "__annotations__") as [v|] eqn:Hattr; [|done].
  destruct (Hdict v Hattr) as [items ->]. simpl.
  rewrite negb_false_iff, bool_decide_eq_true. split.
  - by intros ->.
  - intros Hempty. by apply map_empty.
Qed.

Section is_func_unbeartypeable_facts.
Context `{FuncHost}.

(** The module [mod]: for every callable, declaring [__annotations__] or
    not, the tester returns, and returns [True] exactly when one of the
    four conditions holds. *)
Lemma func_mod_is_func_unbeartypeable_spec (proc : process)
    (func : callable) :
  annotations_is_dict func ->
  exists unbeartypeable,
    func_mod.is_func_unbeartypeable proc func = Return unbeartypeable
    /\ (unbeartypeable = true <->
        unannotated func
        \/ is_func_pep484_notypechecked func = true
        \/ is_func_beartyped func = true
        \/ is_sphinx_autodocing proc = true).
Proof.
  intros Hdict. eexists. split; [reflexivity|].
  rewrite !orb_true_iff, negb_true_iff.
  rewrite (truthy_annotations_unannotated _ Hdict). tauto.
Qed.

(** The module [lib] agrees with the module [mod] on the callables that
    declare [__annotations__], and raises on the others. *)
Lemma func_lib_is_func_unbeartypeable_spec (proc : process)
    (func : callable) :
  func_lib.is_func_unbeartypeable proc func
  = if hasattr func "__annotations__"
    then func_mod.is_func_unbeartypeable proc func
    else Raise AttributeError.
Proof.
  unfold func_lib.is_func_unbeartypeable, func_mod.is_func_unbeartypeable,
    hasattr, getattr, getattr_default.
  by destruct (func !! "__annotations__").
Qed.

End is_func_unbeartypeable_facts.

(** C6, at the failing input.  [functools.partial(print)] declares no
    [__annotations__], so it has no annotations: the module [mod] returns
    [True] for it, and the module [lib] raises [AttributeError]. *)
Theorem func_lib_is_func_unbeartypeable_raises :
  unannotated host.partial_print
  /\ func_mod.is_func_unbeartypeable (H := host.funcs) false
       host.partial_print = Return true
  /\ func_lib.is_func_unbeartypeable (H := host.funcs) false
       host.partial_print = Raise AttributeError.
Proof. repeat split. Qed.

(** ** [clawpkgadd]: the package registry *)

Lemma split_nonempty (sep : ascii) (text : string) : split sep text <> [].
Proof.
  destruct text as [|c rest]; simpl; [done|].
  destruct (Ascii.eqb c sep); [done|]. by destruct (split sep rest).
Qed.

(** The first basename of ["beartype." ++ rest] is ["beartype"]. *)
Lemma split_beartype_subpackage (rest : string) :
  split "." ("beartype." ++ rest) !! 0%nat = Some "beartype".
Proof.
  simpl. by destruct (split "." rest).
Qed.

Section clawpkgadd_facts.
Context `{ClawHost}.

Implicit Types (curr node registry : PackageBasenameToSubpackages).
Implicit Types (conf : BeartypeConf) (package_basenames : list string).

Lemma Subpackages_eta curr :
  Subpackages (conf_if_added curr) (subpackages curr) = curr.
Proof. by destruct curr. Qed.

(** A package registered under [conf] is registered again under [conf]
    without any change. *)
Lemma register_package_same package_basenames conf curr :
  subpackages_at package_basenames curr ≫= conf_if_added = Some conf ->
  register_package package_basenames conf curr = Return curr.
Proof.
  revert curr. induction package_basenames as [|basename rest IH];
    intros curr; simpl.
  - intros ->. by rewrite decide_True.
  - intros (node & (sub & Hsub & Hnode)%bind_Some & Hconf)%bind_Some.
    rewrite Hsub, IH by (by rewrite Hnode). simpl.
    by rewrite insert_id, Subpackages_eta.
Qed.

(** A package registered under another configuration is refused. *)
Lemma register_package_conflict package_basenames conf conf_curr curr :
  subpackages_at package_basenames curr ≫= conf_if_added = Some conf_curr ->
  conf_curr <> conf ->
  register_package package_basenames conf curr
  = Raise BeartypeClawRegistrationException.
Proof.
  intros Hregistered Hdiffer. revert curr Hregistered.
  induction package_basenames as [|basename rest IH]; intros curr; simpl.
  - intros ->. by rewrite decide_False.
  - intros (node & (sub & Hsub & Hnode)%bind_Some & Hconf)%bind_Some.
    rewrite Hsub, IH by (by rewrite Hnode). done.
Qed.

(** The registration of a package raises the registration exception only,
    and only for a package registered under another configuration: every
    node of the walk was there before, so the walk created none. *)
Lemma register_package_raise_registered package_basenames conf curr exc :
  register_package package_basenames conf curr = Raise exc ->
  exc = BeartypeClawRegistrationException
  /\ exists conf_curr,
       subpackages_at package_basenames curr ≫= conf_if_added
       = Some conf_curr
       /\ conf_curr <> conf.
Proof.
  revert curr. induction package_basenames as [|basename rest IH];
    intros curr; simpl.
  - destruct (conf_if_added curr) as [conf_curr|]; [|discriminate].
    case_decide; [discriminate|]. intros [= <-]. split; [done|].
    by exists conf_curr.
  - destruct (subpackages curr !! basename) as [sub|] eqn:Hsub; simpl.
    + destruct (register_package rest conf sub) as [sub'|exc'] eqn:Hrest;
        [discriminate|]. simpl. intros [= <-]. by apply IH.
    + destruct (register_package rest conf PackageBasenameToSubpackages_new)
        as [sub'|exc'] eqn:Hrest; [discriminate|]. simpl. intros [= <-].
      apply IH in Hrest as (_ & conf_curr & Hregistered & _).
      by destruct rest.
Qed.

(** After its registration a package is registered under [conf]. *)
Lemma register_package_registers package_basenames conf curr curr' :
  register_package package_basenames conf curr = Return curr' ->
  subpackages_at package_basenames curr' ≫= conf_if_added = Some conf.
Proof.
  revert curr curr'. induction package_basenames as [|basename rest IH];
    intros curr curr'; simpl.
  - destruct (conf_if_added curr) as [conf_curr|] eqn:Hconf.
    + case_decide; [|discriminate]. intros [= <-]. by subst.
    + by intros [= <-].
  - intros (sub' & Hrest & [= <-])%bind_Return_inv. simpl.
    rewrite lookup_insert_eq. simpl. by eapply IH.
Qed.

(** The registration of a package keeps the configuration of every
    package registered before. *)
Lemma register_package_preserves package_basenames conf curr curr'
    (others : list string) (conf_other : BeartypeConf) :
  register_package package_basenames conf curr = Return curr' ->
  subpackages_at others curr ≫= conf_if_added = Some conf_other ->
  subpackages_at others curr' ≫= conf_if_added = Some conf_other.
Proof.
  revert curr curr' others.
  induction package_basenames as [|basename rest IH];
    intros curr curr' others; simpl.
  - destruct (conf_if_added curr) as [conf_curr|] eqn:Hconf.
    + case_decide; [|discriminate]. by intros [= <-].
    + intros [= <-]. destruct others as [|other others]; simpl; [|done].
      by rewrite Hconf.
  - intros (sub' & Hrest & [= <-])%bind_Return_inv.
    destruct others as [|other others]; simpl; [done|].
    destruct (decide (basename = other)) as [<-|Hother].
    + rewrite lookup_insert_eq. simpl.
      destruct (subpackages curr !! basename) as [sub|] eqn:Hsub; simpl;
        [|done].
      by eapply IH.
    + by rewrite lookup_insert_ne.
Qed.

(** The validation loop passes exactly the iterables whose items are all
    package names, and raises the registration exception for the rest. *)
Lemma add_packages_validate_spec (items : list object) :
  add_packages_validate items
  = if forallb is_package_name items then Return tt
    else Raise BeartypeClawRegistrationException.
Proof.
  induction items as [|[| text | | | | |] rest IH]; simpl; try done.
  by destruct (is_identifier text).
Qed.

(** The registration loop raises when one of the packages is registered
    under another configuration. *)
Lemma add_packages_register_conflict (items : list object) conf conf_curr
    registry (name : string) :
  forallb is_package_name items = true ->
  Str name ∈ items ->
  registered_conf registry name = Some conf_curr ->
  conf_curr <> conf ->
  (add_packages_register items conf registry).1
  = Raise BeartypeClawRegistrationException.
Proof.
  intros Hvalid Hin Hregistered Hdiffer. revert registry Hregistered.
  induction items as [|item rest IH]; intros registry Hregistered.
  - by apply elem_of_nil in Hin.
  - simpl in Hvalid. apply andb_prop in Hvalid as [Hitem Hrest].
    destruct item as [| text | | | | |]; try discriminate. simpl.
    destruct (register_package (split "." text) conf registry)
      as [registry'|exc] eqn:Hregister.
    + apply elem_of_cons in Hin as [[= ->]|Hin].
      * by rewrite (register_package_conflict _ _ conf_curr) in Hregister.
      * apply IH; [done..|]. by eapply register_package_preserves.
    + simpl. by apply register_package_raise_registered in Hregister as [-> _].
Qed.

(** The registration loop changes nothing when every package is
    registered under [conf] already. *)
Lemma add_packages_register_same (items : list object) conf registry :
  Forall (fun item => exists name,
            item = Str name /\ registered_conf registry name = Some conf)
    items ->
  add_packages_register items conf registry = (Return tt, registry).
Proof.
  induction 1 as [|item rest (name & -> & Hregistered) _ IH]; simpl; [done|].
  by rewrite register_package_same.
Qed.

(** The registration loop keeps what was registered before it. *)
Lemma add_packages_register_preserves (items : list object) conf registry
    registry' (name : string) (conf_other : BeartypeConf) :
  add_packages_register items conf registry = (Return tt, registry') ->
  registered_conf registry name = Some conf_other ->
  registered_conf registry' name = Some conf_other.
Proof.
  revert registry. induction items as [|item rest IH]; intros registry; simpl.
  - by intros [= <-].
  - destruct item as [| text | | | | |]; try discriminate.
    destruct (register_package (split "." text) conf registry)
      as [registry1|exc] eqn:Hregister; [|discriminate].
    intros Hrest Hregistered. eapply IH; [done|].
    by eapply register_package_preserves.
Qed.

(** After the registration loop every package is registered under
    [conf]. *)
Lemma add_packages_register_registers (items : list object) conf registry
    registry' (name : string) :
  add_packages_register items conf registry = (Return tt, registry') ->
  Str name ∈ items ->
  registered_conf registry' name = Some conf.
Proof.
  revert registry. induction items as [|item rest IH]; intros registry; simpl.
  - intros _ Hin. by apply elem_of_nil in Hin.
  - destruct item as [| text | | | | |]; try discriminate.
    destruct (register_package (split "." text) conf registry)
      as [registry1|exc] eqn:Hregister; [|discriminate].
    intros Hrest [[= ->]|Hin]%elem_of_cons.
    + eapply add_packages_register_preserves; [done|].
      by eapply register_package_registers.
    + by eapply IH.
Qed.

(** What the two loops of [add_packages] iterate over, by the kind of the
    package names. *)
Lemma package_names_passes_spec (package_names : object) :
  package_names_passes package_names
  = match package_names with
    | Str _ => Some ([package_names], [package_names])
    | Tuple items | List items =>
        match items with
        | [] => None
        | _ => Some (items, items)
        end
    | Iterator items => Some (items, [])
    | _ => None
    end.
Proof.
  destruct package_names as [| | items | items | | | items]; try done;
    by destruct items.
Qed.

(** The registration loop iterates over what the validation loop iterated
    over, or over nothing. *)
Lemma package_names_passes_items (package_names : object)
    (validated items : list object) :
  package_names_passes package_names = Some (validated, items) ->
  items = validated \/ items = [].
Proof.
  rewrite package_names_passes_spec.
  destruct package_names as [| | items' | items' | | | items'];
    try discriminate.
  - intros [= <- <-]. by left.
  - destruct items'; [discriminate|]. intros [= <- <-]. by left.
  - destruct items'; [discriminate|]. intros [= <- <-]. by left.
  - intros [= <- <-]. by right.
Qed.

(** A registration loop that iterates over something iterates over what
    the validation loop iterated over. *)
Lemma package_names_items_nonempty (package_names : object)
    (items : list object) :
  package_names_items package_names = Some items ->
  items <> [] ->
  package_names_passes package_names = Some (items, items).
Proof.
  unfold package_names_items. intros Hitems Hnonempty.
  destruct (package_names_passes package_names) as [[validated items']|]
    eqn:Hpasses; [|discriminate].
  injection Hitems as ->.
  by destruct (package_names_passes_items _ _ _ Hpasses) as [->|?].
Qed.

(** [add_packages] in terms of the items its loops iterate over. *)
Lemma add_packages_unfold (package_names : object) conf registry :
  add_packages package_names conf registry
  = match package_names_passes package_names with
    | None => (Raise BeartypeClawRegistrationException, registry)
    | Some (validated, items) =>
        if forallb is_package_name validated
        then add_packages_register items conf registry
        else (Raise BeartypeClawRegistrationException, registry)
    end.
Proof.
  unfold add_packages, package_names_passes.
  destruct package_names as [| | items | items | | | items]; try done;
    simpl; rewrite ?add_packages_validate_spec; try done;
    try (destruct items as [|item items]; [done|]);
    simpl; rewrite ?add_packages_validate_spec; try done.
  all: repeat match goal with
             | |- context [is_identifier ?text] =>
                 destruct (is_identifier text); simpl
             | |- context [is_package_name ?item] =>
                 destruct (is_package_name item); simpl
             | |- context [forallb ?f ?l] => destruct (forallb f l); simpl
             end; done.
Qed.

End clawpkgadd_facts.

(** For package names that are iterated over twice alike, as a string, a
    tuple or a list: registering a package that is registered under
    another configuration raises the registration exception; registering
    packages that are all registered under this configuration returns and
    leaves the registry as it was; package names that are not iterable, or
    not true, or hold an item that is no string or no "."-delimited
    identifier raise the registration exception and leave the registry as
    it was; and a registration that returns has registered every package
    the registration loop iterated over. *)
Theorem add_packages_registration_errors `{ClawHost}
    (package_names : object) (conf : BeartypeConf)
    (registry : PackageBasenameToSubpackages) :
  (forall items name conf_curr,
      package_names_passes package_names = Some (items, items) ->
      Str name ∈ items ->
      registered_conf registry name = Some conf_curr ->
      conf_curr <> conf ->
      (add_packages package_names conf registry).1
      = Raise BeartypeClawRegistrationException)
  /\ (forall validated items,
      package_names_passes package_names = Some (validated, items) ->
      Forall (fun item => exists name,
                item = Str name /\ is_identifier name = true
                /\ registered_conf registry name = Some conf) validated ->
      add_packages package_names conf registry = (Return tt, registry))
  /\ (package_names_passes package_names = None
      \/ (exists items item,
            package_names_validated package_names = Some items
            /\ item ∈ items /\ is_package_name item = false) ->
      add_packages package_names conf registry
      = (Raise BeartypeClawRegistrationException, registry))
  /\ (forall registry' items name,
      add_packages package_names conf registry = (Return tt, registry') ->
      package_names_items package_names = Some items ->
      Str name ∈ items ->
      registered_conf registry' name = Some conf).
Proof.
  rewrite add_packages_unfold.
  unfold package_names_validated, package_names_items. repeat split.
  - intros items name conf_curr -> Hin Hregistered Hdiffer.
    destruct (forallb is_package_name items) eqn:Hvalid; [|done].
    by eapply add_packages_register_conflict.
  - intros validated items Hpasses Hall. rewrite Hpasses.
    assert (Hvalid : forallb is_package_name validated = true).
    { apply forallb_forall. intros item' Hin.
      rewrite Forall_forall in Hall.
      apply list_elem_of_In, Hall in Hin as (name & -> & Hname & _).
      done. }
    rewrite Hvalid. apply add_packages_register_same.
    destruct (package_names_passes_items _ _ _ Hpasses) as [->| ->];
      [|constructor].
    eapply Forall_impl; [exact Hall|]. simpl.
    intros item' (name & -> & _ & Hregistered). by exists name.
  - intros [->|(items & item & Hpasses & Hin & Hitem)]; [done|].
    destruct (package_names_passes package_names) as [[validated items']|];
      [|done].
    injection Hpasses as ->.
    destruct (forallb is_package_name items) eqn:Hvalid; [|done].
    rewrite forallb_forall in Hvalid.
    apply list_elem_of_In, Hvalid in Hin. congruence.
  - intros registry' items name Hadd Hitems Hin.
    destruct (package_names_passes package_names) as [[validated items']|];
      [|discriminate].
    injection Hitems as ->.
    destruct (forallb is_package_name validated); [|discriminate].
    by eapply add_packages_register_registers.
Qed.

(** The package [muh_package.sub] at the concrete host, once it is
    registered under the default configuration. *)
Lemma add_packages_registration_errors_witness :
  let conf := {| host.is_debug := false; host.strategy := 1 |} in
  let conf_debug := {| host.is_debug := true; host.strategy := 1 |} in
  let registry :=
    (add_packages (H := host.claw) (Str "muh_package.sub") conf
       PackageBasenameToSubpackages_new).2 in
  (add_packages (H := host.claw) (Str "muh_package.sub") conf_debug
     registry).1 = Raise BeartypeClawRegistrationException
  /\ add_packages (H := host.claw)
       (List [Str "muh_package.sub"; Str "muh_package.sub"]) conf registry
     = (Return tt, registry)
  /\ add_packages (H := host.claw)
       (Tuple [Str "other_package"; Str "muh..package"]) conf registry
     = (Raise BeartypeClawRegistrationException, registry)
  /\ registered_conf (H := host.claw) registry "muh_package.sub"
     = Some conf.
Proof.
  intros conf conf_debug registry. split; [|split; [|split]].
  - destruct (add_packages_registration_errors (H := host.claw)
                (Str "muh_package.sub") conf_debug registry)
      as (Hconflict & _).
    apply (Hconflict [Str "muh_package.sub"] "muh_package.sub" conf).
    + reflexivity.
    + left.
    + reflexivity.
    + discriminate.
  - destruct (add_packages_registration_errors (H := host.claw)
                (List [Str "muh_package.sub"; Str "muh_package.sub"])
                conf registry) as (_ & Hsame & _).
    apply (Hsame [Str "muh_package.sub"; Str "muh_package.sub"]
             [Str "muh_package.sub"; Str "muh_package.sub"]).
    + reflexivity.
    + repeat constructor; by exists "muh_package.sub".
  - destruct (add_packages_registration_errors (H := host.claw)
                (Tuple [Str "other_package"; Str "muh..package"])
                conf registry) as (_ & _ & Hinvalid & _).
    apply Hinvalid. right.
    exists [Str "other_package"; Str "muh..package"], (Str "muh..package").
    split; [reflexivity|]. split; [right; left | reflexivity].
  - destruct (add_packages_registration_errors (H := host.claw)
                (Str "muh_package.sub") conf
                PackageBasenameToSubpackages_new) as (_ & _ & _ & Hregisters).
    apply (Hregisters registry [Str "muh_package.sub"]).
    + reflexivity.
    + reflexivity.
    + left.
Defined.

(** C8, at the failing inputs.  A one-shot iterator is true whatever it
    yields, and the validation loop exhausts it before the registration
    loop starts: passed the name of a package registered under another
    configuration, [add_packages] returns without raising; passed no name
    at all it returns as well; and passed the name of a package that is
    not registered it returns and does not register it.  A tuple of the
    same names raises in the first two cases and registers in the
    third. *)
Theorem add_packages_one_shot_iterator_returns :
  let conf := {| host.is_debug := false; host.strategy := 1 |} in
  let conf_debug := {| host.is_debug := true; host.strategy := 1 |} in
  let registry :=
    (add_packages (H := host.claw) (Str "muh_package") conf
       PackageBasenameToSubpackages_new).2 in
  registered_conf (H := host.claw) registry "muh_package" = Some conf
  /\ add_packages (H := host.claw) (Iterator [Str "muh_package"]) conf_debug
       registry = (Return tt, registry)
  /\ (add_packages (H := host.claw) (Tuple [Str "muh_package"]) conf_debug
        registry).1 = Raise BeartypeClawRegistrationException
  /\ add_packages (H := host.claw) (Iterator []) conf registry
     = (Return tt, registry)
  /\ (add_packages (H := host.claw) (Tuple []) conf registry).1
     = Raise BeartypeClawRegistrationException
  /\ add_packages (H := host.claw) (Iterator [Str "other_package"]) conf
       registry = (Return tt, registry)
  /\ registered_conf (H := host.claw)
       (add_packages (H := host.claw) (Iterator [Str "other_package"]) conf
          registry).2 "other_package" = None
  /\ registered_conf (H := host.claw)
       (add_packages (H := host.claw) (Tuple [Str "other_package"]) conf
          registry).2 "other_package" = Some conf.
Proof. repeat split. Qed.

(** For every host: whatever a one-shot iterator yields, [add_packages]
    leaves the registry as it was, and it returns when the items are all
    package names. *)
Lemma add_packages_Iterator `{ClawHost} (items : list object)
    (conf : BeartypeConf) (registry : PackageBasenameToSubpackages) :
  add_packages (Iterator items) conf registry
  = (if forallb is_package_name items then Return tt
     else Raise BeartypeClawRegistrationException, registry).
Proof.
  rewrite add_packages_unfold, package_names_passes_spec.
  by destruct (forallb is_package_name items).
Qed.

(** C10. For a package name whose first basename is ["beartype"],
    [get_package_conf_if_added] returns [None] whatever the registry
    holds: also the registry left by any [add_packages] or
    [add_packages_all]. *)
Theorem get_package_conf_if_added_beartype `{ClawHost}
    (registry : PackageBasenameToSubpackages) (package_name : string) :
  split "." package_name !! 0%nat = Some "beartype" ->
  get_package_conf_if_added registry package_name = None
  /\ (forall package_names conf,
        get_package_conf_if_added
          (add_packages package_names conf registry).2 package_name = None)
  /\ (forall conf,
        get_package_conf_if_added
          (add_packages_all conf registry).2 package_name = None).
Proof.
  intros Hfirst.
  assert (Hnone : forall registry',
            get_package_conf_if_added registry' package_name = None).
  { intros registry'. unfold get_package_conf_if_added.
    by rewrite bool_decide_true. }
  repeat split; intros; apply Hnone.
Qed.

(** The package [beartype.claw] at the concrete host, after all packages
    and this one were registered: it is registered, its configuration is
    not returned, and that of another package is. *)
Lemma get_package_conf_if_added_beartype_witness :
  let conf := {| host.is_debug := false; host.strategy := 1 |} in
  let registry :=
    (add_packages (H := host.claw) (Str "beartype.claw") conf
       (add_packages_all (H := host.claw) conf
          PackageBasenameToSubpackages_new).2).2 in
  registered_conf (H := host.claw) registry "beartype.claw" = Some conf
  /\ get_package_conf_if_added (H := host.claw) registry "muh_package"
     = Some conf
  /\ get_package_conf_if_added (H := host.claw) registry "beartype.claw"
     = None.
Proof.
  intros conf registry. split; [reflexivity|]. split; [reflexivity|].
  apply (get_package_conf_if_added_beartype (H := host.claw) registry
           "beartype.claw"). reflexivity.
Defined.

(** ** The concrete host: unions of classes *)

Lemma host_remove_dups_classes (seen names : list string) :
  NoDup names ->
  (forall name, name ∈ names -> name ∉ seen) ->
  host.remove_dups seen (Class <$> names) = Class <$> names.
Proof.
  intros Hnodup. revert seen.
  induction Hnodup as [|name rest Hfresh _ IH]; intros seen Hseen; simpl;
    [done|].
  rewrite bool_decide_false by (apply Hseen; left).
  f_equal. apply IH. intros other Hother [->|Hin]%elem_of_cons; [done|].
  by apply (Hseen other); [right|].
Qed.

(** At the concrete host, the union of a tuple of two or more distinct
    classes is subscripted by these classes, in their order. *)
Lemma host_Union_getitem_classes (names : list string) :
  NoDup names -> 2 <= length names ->
  host.Union_getitem (Tuple (Class <$> names))
  = Return (host.Union 0 (Class <$> names)).
Proof.
  intros Hnodup Hlength. unfold host.Union_getitem.
  assert (Hmembers : (Class <$> names) ≫= host.union_members
                     = Class <$> names).
  { clear. induction names as [|name rest IH]; [done|].
    simpl. f_equal. exact IH. }
  rewrite Hmembers.
  rewrite bool_decide_false
    by (destruct names; [simpl in Hlength; lia | discriminate]).
  assert (Hall : forall test : object -> bool,
            (forall name, test (Class name) = true) ->
            forallb test (Class <$> names) = true).
  { intros test Htest. clear -Htest.
    induction names as [|name rest IH]; [done|].
    change (test (Class name) && forallb test (Class <$> rest) = true).
    by rewrite Htest, IH. }
  rewrite !Hall by done. simpl.
  rewrite host_remove_dups_classes by (done || intros ? ?; apply not_elem_of_nil).
  destruct names as [|first [|second rest]]; simpl in *; [lia | lia | done].
Qed.

(** "callable [f(x: (int, str)) -> None] ...; a second distinct callable
    [g(y: (int, str)) -> None] resolved afterward shares the identical
    disjunction instance with [f]'s slot": the instance that [typing]
    caches. *)
Example cache_hint_nonpep563_tuple_unions_shared :
  let out_f :=
    cache_hint_nonpep563 (H := host.hints)
      (host.def_annotated "x" (Tuple [host.int; host.str])) "x"
      (Tuple [host.int; host.str]) "Parameter x" ∅ in
  let out_g :=
    cache_hint_nonpep563 (H := host.hints)
      (host.def_annotated "y" (Tuple [host.int; host.str])) "y"
      (Tuple [host.int; host.str]) "Parameter y"
      (_HINT_REPR_TO_HINT_after out_f) in
  returned out_f = returned out_g
  /\ annotation_slot (func_after out_f) "x"
     = annotation_slot (func_after out_g) "y"
  /\ annotation_slot (func_after out_g) "y"
     = Some (host.Union 0 [host.int; host.str]).
Proof. repeat split. Qed.

(** * Further properties *)

(** ** [utilpyversion] *)

Lemma tuple_ge_pair (major minor a b : nat) (rest : list nat) :
  tuple_ge (major :: minor :: rest) [a; b] = true
  <-> a < major \/ (major = a /\ b <= minor).
Proof.
  cbn [tuple_ge].
  destruct (major <? a)%nat eqn:Hlt; [apply Nat.ltb_lt in Hlt; split;
    [discriminate | lia]|]. apply Nat.ltb_ge in Hlt.
  destruct (a <? major)%nat eqn:Hgt; [apply Nat.ltb_lt in Hgt; split;
    [lia | done]|]. apply Nat.ltb_ge in Hgt.
  destruct (minor <? b)%nat eqn:Hlt'; [apply Nat.ltb_lt in Hlt'; split;
    [discriminate | lia]|]. apply Nat.ltb_ge in Hlt'.
  split; [lia|]. intros _. by destruct (b <? minor)%nat, rest.
Qed.

(** X1. Each [IS_PYTHON_AT_LEAST_a_b], though defined through the flag of
    the next version, is [True] exactly when the interpreter is at least
    version [a.b]; hence each flag implies the flags of the older
    versions. *)
Theorem IS_PYTHON_AT_LEAST_spec (major minor : nat) (rest : list nat) :
  let version_info := major :: minor :: rest in
  let at_least (a b : nat) := a < major \/ (major = a /\ b <= minor) in
  (IS_PYTHON_AT_LEAST_4_0 version_info = true <-> at_least 4 0)
  /\ (IS_PYTHON_AT_LEAST_3_9 version_info = true <-> at_least 3 9)
  /\ (IS_PYTHON_AT_LEAST_3_8 version_info = true <-> at_least 3 8)
  /\ (IS_PYTHON_AT_LEAST_3_7 version_info = true <-> at_least 3 7)
  /\ (IS_PYTHON_AT_LEAST_3_6 version_info = true <-> at_least 3 6)
  /\ (IS_PYTHON_AT_LEAST_4_0 version_info = true ->
      IS_PYTHON_AT_LEAST_3_9 version_info = true)
  /\ (IS_PYTHON_AT_LEAST_3_9 version_info = true ->
      IS_PYTHON_AT_LEAST_3_8 version_info = true)
  /\ (IS_PYTHON_AT_LEAST_3_8 version_info = true ->
      IS_PYTHON_AT_LEAST_3_7 version_info = true)
  /\ (IS_PYTHON_AT_LEAST_3_7 version_info = true ->
      IS_PYTHON_AT_LEAST_3_6 version_info = true).
Proof.
  intros version_info at_least.
  unfold IS_PYTHON_AT_LEAST_3_6, IS_PYTHON_AT_LEAST_3_7,
    IS_PYTHON_AT_LEAST_3_8, IS_PYTHON_AT_LEAST_3_9, IS_PYTHON_AT_LEAST_4_0,
    version_info, at_least.
  rewrite !orb_true_iff, !tuple_ge_pair. lia.
Qed.

(** ** [utilhinttest] *)

(** X2. An unhashable object makes [is_hint_ignorable] raise [TypeError]:
    the test of membership in [HINTS_SHALLOW_IGNORABLE] hashes it, as does
    the memoization before it. *)
Theorem is_hint_ignorable_unhashable_TypeError `{HintHost} (hint : object) :
  is_hashable hint = false ->
  is_hint_ignorable hint = Raise TypeError
  /\ frozenset_contains HINTS_SHALLOW_IGNORABLE hint = Raise TypeError.
Proof.
  intros Hhash. split.
  - rewrite is_hint_ignorable_unfold. by apply callable_cached_unhashable.
  - unfold frozenset_contains. by rewrite Hhash.
Qed.

(** The tuple [(int, [])] at the concrete host. *)
Lemma is_hint_ignorable_unhashable_TypeError_witness :
  is_hint_ignorable (H := host.hints) (Tuple [host.int; List []])
  = Raise TypeError.
Proof.
  apply (is_hint_ignorable_unhashable_TypeError (H := host.hints)
           (Tuple [host.int; List []])). reflexivity.
Defined.

(** X3. On a hashable hint [is_hint_ignorable] returns, and returns [True]
    exactly for the hints that are ignorable by the rules of its
    docstring: in the shallow set, or a union with an ignorable child, or
    an annotated hint over an ignorable origin, to any depth. *)
Theorem is_hint_ignorable_decides_deeply_ignorable `{HintHost}
    (hint : object) :
  Annotated_hints_have_origin ->
  is_hashable hint = true ->
  exists ignorable,
    is_hint_ignorable hint = Return ignorable
    /\ (ignorable = true <-> deeply_ignorable hint).
Proof.
  intros Horigin Hhash.
  destruct (is_hint_ignorable_total hint Horigin Hhash) as [ignorable Heq].
  exists ignorable. split; [done|]. split.
  - intros ->. by apply is_hint_ignorable_sound.
  - intros Hdeep.
    rewrite (is_hint_ignorable_complete hint Horigin Hdeep Hhash) in Heq.
    congruence.
Qed.

(** [Union[int, Annotated[Union[str, Any], 'metadata']]] at the concrete
    host: ignorable through two levels. *)
Lemma is_hint_ignorable_decides_deeply_ignorable_witness :
  let hint :=
    host.Union 0
      [host.int;
       host.Annotated_of 0 (host.Union 0 [host.str; host.Any])
         [Str "metadata"]] in
  is_hint_ignorable (H := host.hints) hint = Return true
  /\ deeply_ignorable (H := host.hints) hint.
Proof.
  intros hint.
  destruct (is_hint_ignorable_decides_deeply_ignorable (H := host.hints)
              hint host_Annotated_hints_have_origin eq_refl)
    as (ignorable & Heq & Hiff).
  assert (Htrue : ignorable = true)
    by (vm_compute in Heq; congruence).
  split; [by rewrite Heq, Htrue | by apply Hiff].
Defined.

(** X4. When the [die_unless_*] helpers raise for what the [is_*] testers
    reject, [die_unless_hint] returns exactly for the objects [is_hint]
    accepts: the two functions stay synchronized. *)
Theorem die_unless_hint_iff_is_hint `{HintHost} (hint : object)
    (hint_label : string) (is_str_valid : bool) :
  die_helpers_synchronized ->
  die_unless_hint hint hint_label is_str_valid = Return tt
  <-> is_hint hint is_str_valid = Return true.
Proof.
  intros [Hpep Hnonpep]. split; [|apply die_unless_hint_supported].
  intros Hdie.
  pose proof (die_unless_hint_hashable _ _ _ Hdie) as Hhash.
  unfold die_unless_hint, is_hint in *.
  rewrite callable_cached_hashable in * by done. simpl in Hdie.
  destruct (is_hint_pep hint).
  - destruct (is_hint_pep_supported hint) eqn:Hsupported; [done|].
    destruct (Hpep hint hint_label Hsupported) as [exc Hexc].
    by rewrite Hexc in Hdie.
  - destruct (is_hint_nonpep hint is_str_valid) eqn:Hsupported; [done|].
    destruct (Hnonpep hint hint_label is_str_valid Hsupported) as [exc Hexc].
    by rewrite Hexc in Hdie.
Qed.

Lemma host_die_helpers_synchronized :
  die_helpers_synchronized (H := host.hints).
Proof.
  split.
  - intros hint hint_label Hrejected. simpl.
    unfold host.die_unless_hint_pep_supported.
    simpl in Hrejected. rewrite Hrejected. by eexists.
  - intros hint hint_label is_str_valid Hrejected. simpl.
    unfold host.die_unless_hint_nonpep.
    simpl in Hrejected. rewrite Hrejected. by eexists.
Qed.

(** The forward reference ['muh.Class'] at the concrete host, where
    strings are valid and where they are not. *)
Lemma die_unless_hint_iff_is_hint_witness :
  die_unless_hint (H := host.hints) (Str "muh.Class") "Annotated" true
  = Return tt
  /\ die_unless_hint (H := host.hints) (Str "muh.Class") "Annotated" false
     <> Return tt.
Proof.
  split.
  - apply (die_unless_hint_iff_is_hint (H := host.hints));
      [apply host_die_helpers_synchronized | reflexivity].
  - intros Hreturns.
    apply (die_unless_hint_iff_is_hint (H := host.hints)) in Hreturns;
      [discriminate | apply host_die_helpers_synchronized].
Defined.

(** ** [cachehint] *)

(** X5. A call of [cache_hint_nonpep563] changes the callable, if at all,
    only in the slot [pith_name] of its [__annotations__]: every other
    attribute and every other slot is as before; a hint that is no tuple
    leaves the callable as it was; and the callable is changed only by
    storing the union that [typing] made of a tuple. *)
Theorem cache_hint_nonpep563_frame `{HintHost} (func : callable)
    (pith_name : string) (hint : object) (hint_label : string)
    (cache : gmap string object) :
  let out := cache_hint_nonpep563 func pith_name hint hint_label cache in
  (forall name, name <> "__annotations__" ->
                func_after out !! name = func !! name)
  /\ (forall other, other <> pith_name ->
        annotation_slot (func_after out) other = annotation_slot func other)
  /\ (isinstance_tuple hint = false -> func_after out = func)
  /\ (func_after out = func
      \/ exists union,
           isinstance_tuple hint = true
           /\ Union_getitem hint = Return union
           /\ annotation_slot (func_after out) pith_name = Some union).
Proof.
  intros out. split; [|split; [|split]].
  - intros name Hname. by apply cache_hint_nonpep563_other_attrs.
  - intros other Hother. unfold out, cache_hint_nonpep563. simpl.
    destruct (isinstance_tuple hint); [|done].
    destruct (Union_getitem hint) as [union|exc]; [|done].
    unfold setitem_annotations, getattr, annotation_slot.
    destruct (func !! "__annotations__") as [[| |items|]|] eqn:Hattr; simpl;
      rewrite ?Hattr; try done.
    unfold setattr. by rewrite lookup_insert_eq, lookup_insert_ne.
  - intros Htuple. unfold out. by rewrite cache_hint_nonpep563_not_tuple.
  - unfold out, cache_hint_nonpep563. simpl.
    destruct (isinstance_tuple hint); [|by left].
    destruct (Union_getitem hint) as [union|exc]; [|by left].
    unfold setitem_annotations, getattr, annotation_slot.
    destruct (func !! "__annotations__") as [[| |items|]|] eqn:Hattr; simpl;
      try (by left).
    right. exists union. unfold setattr.
    by rewrite !lookup_insert_eq.
Qed.

(** X6. The hint a call returns passed [die_unless_hint], is hashable and,
    as [Union] never returns a tuple, is no tuple: no tuple union is ever
    handed on.  The unions that [Union] refuses, and the callables without
    [__annotations__], make the call raise and leave the callable as it
    was. *)
Theorem cache_hint_nonpep563_returns_canonical `{HintHost} (func : callable)
    (pith_name : string) (hint resolved : object) (hint_label : string)
    (cache : gmap string object) :
  (forall params union,
      Union_getitem params = Return union ->
      isinstance_tuple union = false) ->
  let out := cache_hint_nonpep563 func pith_name hint hint_label cache in
  (returned out = Return resolved ->
   isinstance_tuple resolved = false
   /\ is_hashable resolved = true
   /\ die_unless_hint resolved hint_label true = Return tt)
  /\ (forall exc,
        isinstance_tuple hint = true ->
        Union_getitem hint = Raise exc \/ getattr func "__annotations__" = Raise exc ->
        (exists exc', returned out = Raise exc') /\ func_after out = func).
Proof.
  intros Hunion out. split.
  - intros Hreturned.
    apply cache_hint_nonpep563_returned in Hreturned as [Hdie Hcase].
    split; [|split; [by eapply die_unless_hint_hashable | done]].
    destruct (isinstance_tuple hint) eqn:Hhint.
    + by eapply Hunion.
    + by subst resolved.
  - intros exc Htuple Hraise. unfold out, cache_hint_nonpep563.
    rewrite Htuple. simpl.
    destruct (Union_getitem hint) as [union|exc'] eqn:Hgetitem.
    + destruct Hraise as [?|Hattr]; [discriminate|].
      unfold setitem_annotations. rewrite Hattr. simpl.
      split; [by eexists | done].
    + simpl. split; [by eexists | done].
Qed.

(** The empty tuple at the concrete host is refused by [Union]; the tuple
    [(int, str)] is returned as a union. *)
Lemma cache_hint_nonpep563_returns_canonical_witness :
  (exists exc,
      returned (cache_hint_nonpep563 (H := host.hints) host.f_x_int_str "x"
                  (Tuple []) "Parameter x" ∅) = Raise exc)
  /\ func_after (cache_hint_nonpep563 (H := host.hints) host.f_x_int_str "x"
                   (Tuple []) "Parameter x" ∅) = host.f_x_int_str
  /\ is_hashable (host.Union 0 [host.int; host.str]) = true.
Proof.
  destruct (cache_hint_nonpep563_returns_canonical (H := host.hints)
              host.f_x_int_str "x" (Tuple [])
              (host.Union 0 [host.int; host.str]) "Parameter x" ∅
              host_Union_getitem_not_tuple) as [_ Hraises].
  destruct (Hraises TypeError eq_refl (or_introl eq_refl)) as [Hexc Hfunc].
  destruct (cache_hint_nonpep563_returns_canonical (H := host.hints)
              host.f_x_int_str "x" (Tuple [host.int; host.str])
              (host.Union 0 [host.int; host.str]) "Parameter x" ∅
              host_Union_getitem_not_tuple) as [Hreturns _].
  destruct (Hreturns eq_refl) as (_ & Hhash & _).
  by repeat split.
Defined.

(** ** [utilbeartypefunc] *)

(** X7. In the module [mod], [is_func_unbeartypeable] returns for every
    callable, declaring [__annotations__] or not, and returns [True]
    exactly when the callable has no annotations, or opted out of type
    checking, or is a wrapper generated by beartype, or Sphinx is
    autodocumenting. *)
Theorem func_mod_is_func_unbeartypeable_iff `{FuncHost} (proc : process)
    (func : callable) :
  annotations_is_dict func ->
  exists unbeartypeable,
    func_mod.is_func_unbeartypeable proc func = Return unbeartypeable
    /\ (unbeartypeable = true <->
        unannotated func
        \/ is_func_pep484_notypechecked func = true
        \/ is_func_beartyped func = true
        \/ is_sphinx_autodocing proc = true).
Proof. apply func_mod_is_func_unbeartypeable_spec. Qed.

Lemma host_def_annotated_is_dict (pith_name : string) (hint : object) :
  annotations_is_dict (host.def_annotated pith_name hint).
Proof.
  intros v Hattr. unfold host.def_annotated in Hattr.
  apply lookup_singleton_Some in Hattr as [_ <-]. by eexists.
Qed.

(** [def f(x: (int, str)) -> None] at the concrete host, while Sphinx is
    not running: annotated, not opted out, not a wrapper. *)
Lemma func_mod_is_func_unbeartypeable_iff_witness :
  func_mod.is_func_unbeartypeable (H := host.funcs) false host.f_x_int_str
  = Return false
  /\ ~ unannotated host.f_x_int_str.
Proof.
  destruct (func_mod_is_func_unbeartypeable_iff (H := host.funcs) false
              host.f_x_int_str (host_def_annotated_is_dict _ _))
    as (unbeartypeable & Heq & Hiff).
  assert (Hfalse : unbeartypeable = false)
    by (vm_compute in Heq; congruence).
  split; [by rewrite Heq, Hfalse|].
  intros Hunannotated. rewrite Hfalse in Hiff.
  by assert (false = true) by (apply Hiff; by left).
Defined.

(** X8. In the module [lib], [is_func_unbeartypeable] raises, and raises
    [AttributeError], exactly for the callables that do not declare
    [__annotations__]; for all others it returns what the module [mod]
    returns. *)
Theorem func_lib_is_func_unbeartypeable_vs_mod `{FuncHost} (proc : process)
    (func : callable) :
  (hasattr func "__annotations__" = true ->
   func_lib.is_func_unbeartypeable proc func
   = func_mod.is_func_unbeartypeable proc func)
  /\ (hasattr func "__annotations__" = false ->
      func_lib.is_func_unbeartypeable proc func = Raise AttributeError)
  /\ ((exists exc, func_lib.is_func_unbeartypeable proc func = Raise exc)
      <-> hasattr func "__annotations__" = false).
Proof.
  rewrite func_lib_is_func_unbeartypeable_spec.
  destruct (hasattr func "__annotations__"); repeat split; try done.
  - by intros [exc [=]].
  - by exists AttributeError.
Qed.

(** X9. A callable marked by [set_func_beartyped] is unbeartypeable: in
    the module [mod], [is_func_unbeartypeable] returns [True] for it, also
    after any further calls of the functions embedded here, whatever the
    state of the process. *)
Theorem set_func_beartyped_is_func_unbeartypeable `{HintHost} `{FuncHost}
    (proc : process) (func marked : callable) (calls : list call) :
  set_func_beartyped func = Return marked ->
  func_mod.is_func_unbeartypeable proc marked = Return true
  /\ func_mod.is_func_unbeartypeable proc (calls_effect marked calls)
     = Return true
  /\ (call_set_func_beartyped ∈ calls ->
      func_mod.is_func_unbeartypeable proc (calls_effect func calls)
      = Return true).
Proof.
  intros Hset.
  apply set_func_beartyped_Return in Hset as (Htakes & _ & Hmark & _).
  assert (Hmarked : forall func',
            is_func_beartyped func' = true ->
            func_mod.is_func_unbeartypeable proc func' = Return true).
  { intros func' Hmark'. unfold func_mod.is_func_unbeartypeable.
    rewrite Hmark'. f_equal. by rewrite orb_true_r. }
  split; [|split].
  - by apply Hmarked.
  - apply Hmarked, calls_effect_marker. by left.
  - intros Hin. apply Hmarked, calls_effect_marker. by right.
Qed.

(** The function [f(x: int) -> str] at the concrete host: once marked it
    is unbeartypeable, while it is beartypeable before. *)
Lemma set_func_beartyped_is_func_unbeartypeable_witness :
  let proc := false in
  let marked := <["__beartype_wrapper" := VBool true]> host.f_x_int_str in
  set_func_beartyped (H := host.funcs) host.f_x_int_str = Return marked
  /\ func_mod.is_func_unbeartypeable (H := host.funcs) proc
       host.f_x_int_str = Return false
  /\ func_mod.is_func_unbeartypeable (H := host.funcs) proc marked
     = Return true
  /\ func_mod.is_func_unbeartypeable (H := host.funcs) proc
       (calls_effect (H := host.hints) (H0 := host.funcs) marked
          [call_is_func_beartyped; call_set_func_beartyped])
     = Return true
  /\ func_mod.is_func_unbeartypeable (H := host.funcs) proc
       (calls_effect (H := host.hints) (H0 := host.funcs) host.f_x_int_str
          [call_is_func_unbeartypeable; call_set_func_beartyped])
     = Return true.
Proof.
  intros proc marked.
  assert (Hset : set_func_beartyped (H := host.funcs) host.f_x_int_str
                 = Return marked) by reflexivity.
  split; [exact Hset|]. split; [reflexivity|].
  destruct (set_func_beartyped_is_func_unbeartypeable (H := host.hints)
              (H0 := host.funcs) proc host.f_x_int_str marked
              [call_is_func_beartyped; call_set_func_beartyped] Hset)
    as (Hmarked & Hcalls & _).
  split; [exact Hmarked|]. split; [exact Hcalls|].
  destruct (set_func_beartyped_is_func_unbeartypeable (H := host.hints)
              (H0 := host.funcs) proc host.f_x_int_str marked
              [call_is_func_unbeartypeable; call_set_func_beartyped] Hset)
    as (_ & _ & Hlater).
  apply Hlater. right. left.
Defined.

(** ** [clawpkgadd]: names and basenames *)

(** Splitting the name of a submodule gives the basenames of its package
    followed by its own. *)
Lemma split_app (sep : ascii) (package submodule : string) :
  split sep (package ++ String sep submodule)
  = (split sep package ++ split sep submodule)%list.
Proof.
  induction package as [|c package IH]; simpl.
  - by rewrite Ascii.eqb_refl.
  - destruct (Ascii.eqb c sep); [by rewrite IH|]. rewrite IH.
    pose proof (split_nonempty sep package) as Hnonempty.
    by destruct (split sep package).
Qed.

(** Joining the basenames of a name gives the name back. *)
Lemma join_split (sep : ascii) (text : string) :
  join sep (split sep text) = text.
Proof.
  induction text as [|c text IH]; [done|]. simpl.
  pose proof (split_nonempty sep text) as Hnonempty.
  destruct (Ascii.eqb_spec c sep) as [->|Hsep].
  - destruct (split sep text) as [|first others] eqn:Hsplit; [done|].
    change (join sep (EmptyString :: first :: others))
      with (String sep (join sep (first :: others))).
    by rewrite IH.
  - destruct (split sep text) as [|first [|second others]] eqn:Hsplit;
      [done| |].
    + simpl in *. by rewrite IH.
    + change (join sep (String c first :: second :: others))
        with (String c (join sep (first :: second :: others))).
      by rewrite IH.
Qed.

Lemma split_inj (sep : ascii) (text1 text2 : string) :
  split sep text1 = split sep text2 -> text1 = text2.
Proof.
  intros Hsplit. by rewrite <- (join_split sep text1), Hsplit, join_split.
Qed.

Section clawpkgadd_more.
Context `{ClawHost}.

Implicit Types (curr node registry : PackageBasenameToSubpackages).
Implicit Types (conf : BeartypeConf) (package_basenames : list string).

Lemma registered_conf_at_cons (basename : string) package_basenames curr :
  registered_conf_at (basename :: package_basenames) curr
  = match subpackages curr !! basename with
    | Some node => registered_conf_at package_basenames node
    | None => None
    end.
Proof.
  unfold registered_conf_at. simpl. by destruct (subpackages curr !! basename).
Qed.

Lemma registered_conf_at_new package_basenames :
  registered_conf_at package_basenames PackageBasenameToSubpackages_new
  = None.
Proof. by destruct package_basenames. Qed.

(** The loop of [get_package_conf_if_added] returns the configuration of
    the deepest registered node on the walk, and the configuration it
    started from when no node on the walk is registered. *)
Lemma get_package_conf_loop_deepest package_basenames curr
    (package_conf_if_added : option BeartypeConf) :
  (get_package_conf_loop package_basenames curr package_conf_if_added
   = package_conf_if_added
   /\ forall above below,
        package_basenames = (above ++ below)%list -> above <> [] ->
        registered_conf_at above curr = None)
  \/ (exists above below conf,
        package_basenames = (above ++ below)%list /\ above <> []
        /\ get_package_conf_loop package_basenames curr package_conf_if_added
           = Some conf
        /\ registered_conf_at above curr = Some conf
        /\ forall deeper rest,
             below = (deeper ++ rest)%list -> deeper <> [] ->
             registered_conf_at (above ++ deeper)%list curr = None).
Proof.
  revert curr package_conf_if_added.
  induction package_basenames as [|basename basenames IH];
    intros curr acc; simpl.
  - left. split; [done|]. intros above below Happ Habove.
    symmetry in Happ. by apply app_eq_nil in Happ as [-> _].
  - destruct (subpackages curr !! basename) as [node|] eqn:Hnode.
    + destruct (IH node (match conf_if_added node with
                         | Some conf => Some conf
                         | None => acc
                         end))
        as [[Hloop Hnone]|(above & below & conf & -> & Habove & Hloop
                           & Hconf & Hdeepest)].
      * destruct (conf_if_added node) as [conf|] eqn:Hconf.
        -- right. exists [basename], basenames, conf.
           split; [done|]. split; [done|]. split; [done|]. split.
           ++ by rewrite registered_conf_at_cons, Hnode.
           ++ intros deeper rest Happ Hdeeper. simpl.
              rewrite registered_conf_at_cons, Hnode. by eapply Hnone.
        -- left. split; [done|]. intros above below Happ Habove.
           destruct above as [|first above]; [done|].
           injection Happ as <- Happ.
           rewrite registered_conf_at_cons, Hnode.
           destruct above as [|second above]; [done|]. by eapply Hnone.
      * right. exists (basename :: above), below, conf.
        split; [done|]. split; [done|]. split; [done|]. split.
        -- by rewrite registered_conf_at_cons, Hnode.
        -- intros deeper rest Happ Hdeeper. simpl.
           rewrite registered_conf_at_cons, Hnode. by eapply Hdeepest.
    + left. split; [done|]. intros above below Happ Habove.
      destruct above as [|first above]; [done|].
      injection Happ as <- Happ. by rewrite registered_conf_at_cons, Hnode.
Qed.

(** The walk stops at the first basename that has no node. *)
Lemma get_package_conf_loop_app_None package_basenames (basename : string)
    (rest : list string) curr (package_conf_if_added : option BeartypeConf) :
  subpackages_at (package_basenames ++ [basename])%list curr = None ->
  get_package_conf_loop (package_basenames ++ basename :: rest)%list curr
    package_conf_if_added
  = get_package_conf_loop package_basenames curr package_conf_if_added.
Proof.
  revert curr package_conf_if_added.
  induction package_basenames as [|first basenames IH];
    intros curr acc; simpl.
  - by destruct (subpackages curr !! basename).
  - destruct (subpackages curr !! first) as [node|]; simpl; [|done].
    apply IH.
Qed.

(** [get_package_conf_if_added] for a name outside of [beartype]. *)
Lemma get_package_conf_if_added_deepest_of registry (package_name : string) :
  split "." package_name !! 0%nat <> Some "beartype" ->
  (get_package_conf_if_added registry package_name = None
   /\ forall above below,
        split "." package_name = (above ++ below)%list ->
        registered_conf_at above registry = None)
  \/ (exists above below conf,
        split "." package_name = (above ++ below)%list
        /\ get_package_conf_if_added registry package_name = Some conf
        /\ registered_conf_at above registry = Some conf
        /\ forall deeper rest,
             below = (deeper ++ rest)%list -> deeper <> [] ->
             registered_conf_at (above ++ deeper)%list registry = None).
Proof.
  intros Hfirst. unfold get_package_conf_if_added.
  rewrite bool_decide_false by done.
  destruct (get_package_conf_loop_deepest (split "." package_name) registry
              (conf_if_added registry))
    as [[Hloop Hnone]|(above & below & conf & Happ & Habove & Hloop
                       & Hconf & Hdeepest)].
  - rewrite Hloop. destruct (conf_if_added registry) as [conf|] eqn:Hroot.
    + right. exists [], (split "." package_name), conf.
      repeat split; try done;
        intros deeper rest Happ Hdeeper; by eapply Hnone.
    + left. split; [done|]. intros above below Happ.
      destruct above as [|first above]; [done|]. by eapply Hnone.
  - right. exists above, below, conf. by rewrite Hloop.
Qed.

(** A package registered by name, outside of [beartype], gets the
    configuration it was registered under. *)
Lemma get_package_conf_if_added_registered registry (package_name : string)
    conf :
  split "." package_name !! 0%nat <> Some "beartype" ->
  registered_conf registry package_name = Some conf ->
  get_package_conf_if_added registry package_name = Some conf.
Proof.
  intros Hfirst Hregistered.
  change (registered_conf_at (split "." package_name) registry = Some conf)
    in Hregistered.
  destruct (get_package_conf_if_added_deepest_of registry package_name Hfirst)
    as [[_ Hnone]|(above & below & conf' & Happ & Hget & Hconf & Hdeepest)].
  - rewrite (Hnone (split "." package_name) []) in Hregistered;
      [done | by rewrite app_nil_r].
  - rewrite Hget, Happ in *. destruct below as [|basename below].
    + rewrite app_nil_r in Hregistered. congruence.
    + rewrite (Hdeepest (basename :: below) []) in Hregistered;
        [done | by rewrite app_nil_r | done].
Qed.

End clawpkgadd_more.

Section clawpkgadd_registration.
Context `{ClawHost}.

Implicit Types (curr node registry : PackageBasenameToSubpackages).
Implicit Types (conf : BeartypeConf) (package_basenames : list string).

(** The registration of a package changes the registration of no other
    node of the registry. *)
Lemma register_package_other package_basenames conf curr curr'
    (others : list string) :
  register_package package_basenames conf curr = Return curr' ->
  others <> package_basenames ->
  registered_conf_at others curr' = registered_conf_at others curr.
Proof.
  revert curr curr' others.
  induction package_basenames as [|basename rest IH];
    intros curr curr' others; simpl.
  - intros Hregister Hothers.
    destruct others as [|other others]; [done|].
    rewrite !registered_conf_at_cons.
    destruct (conf_if_added curr) as [conf_curr|].
    + case_decide; [|discriminate]. by injection Hregister as <-.
    + by injection Hregister as <-.
  - intros (node' & Hrest & [= <-])%bind_Return_inv Hothers.
    destruct others as [|other others]; [done|].
    rewrite !registered_conf_at_cons. simpl.
    destruct (decide (basename = other)) as [<-|Hother].
    + rewrite lookup_insert_eq.
      assert (Hothers' : others <> rest) by congruence.
      destruct (subpackages curr !! basename) as [node|].
      * by eapply IH.
      * rewrite (IH _ _ _ Hrest Hothers').
        apply registered_conf_at_new.
    + by rewrite lookup_insert_ne.
Qed.

(** The registration loop, whether it returns or raises, keeps every
    configuration that was registered. *)
Lemma add_packages_register_keeps (items : list object) conf registry
    (others : list string) (conf_other : BeartypeConf) :
  registered_conf_at others registry = Some conf_other ->
  registered_conf_at others (add_packages_register items conf registry).2
  = Some conf_other.
Proof.
  revert registry. induction items as [|item rest IH]; intros registry;
    simpl; [done|].
  destruct item as [| text | | | | |]; try done.
  destruct (register_package (split "." text) conf registry)
    as [registry'|exc] eqn:Hregister; [|done].
  intros Hregistered. apply IH.
  by eapply register_package_preserves.
Qed.

(** The registration loop changes the registration of none of the nodes
    it was not asked to register. *)
Lemma add_packages_register_other (items : list object) conf registry
    (others : list string) :
  (forall text, Str text ∈ items -> others <> split "." text) ->
  registered_conf_at others (add_packages_register items conf registry).2
  = registered_conf_at others registry.
Proof.
  revert registry. induction items as [|item rest IH]; intros registry Hnot;
    simpl; [done|].
  destruct item as [| text | | | | |]; try done.
  destruct (register_package (split "." text) conf registry)
    as [registry'|exc] eqn:Hregister; [|done].
  rewrite IH by (intros text' Hin; apply Hnot; by right).
  eapply register_package_other; [done|]. apply Hnot. left.
Qed.

Lemma add_packages_result (package_names : object) conf registry :
  (add_packages package_names conf registry).2 = registry
  \/ exists items,
       package_names_passes package_names = Some (items, items)
       /\ items <> [] /\ forallb is_package_name items = true
       /\ add_packages package_names conf registry
          = add_packages_register items conf registry.
Proof.
  rewrite add_packages_unfold.
  destruct (package_names_passes package_names) as [[validated items]|]
    eqn:Hpasses; [|by left].
  destruct (forallb is_package_name validated) eqn:Hvalid; [|by left].
  destruct (package_names_passes_items _ _ _ Hpasses) as [->| ->];
    [|by left].
  destruct validated as [|item rest]; [by left|].
  right. by exists (item :: rest).
Qed.

Lemma register_package_only_under package_basenames conf registry :
  package_basenames <> [] ->
  registered_only_under conf registry ->
  exists registry',
    register_package package_basenames conf registry = Return registry'
    /\ registered_only_under conf registry'.
Proof.
  intros Hnonempty Honly.
  destruct (register_package package_basenames conf registry)
    as [registry'|exc] eqn:Hregister.
  - exists registry'. split; [done|].
    intros others conf_curr Hothers Hregistered.
    destruct (decide (others = package_basenames)) as [->|Hother].
    + apply register_package_registers in Hregister.
      unfold registered_conf_at in Hregistered. congruence.
    + rewrite (register_package_other _ _ _ _ _ Hregister Hother)
        in Hregistered.
      by eapply Honly.
  - apply register_package_raise_registered in Hregister
      as (_ & conf_curr & Hregistered & Hdiffer).
    by destruct Hdiffer, (Honly package_basenames conf_curr).
Qed.

Lemma add_packages_register_only_under (items : list object) conf registry :
  forallb is_package_name items = true ->
  registered_only_under conf registry ->
  (add_packages_register items conf registry).1 = Return tt.
Proof.
  revert registry. induction items as [|item rest IH];
    intros registry Hvalid Honly; simpl; [done|].
  simpl in Hvalid. apply andb_prop in Hvalid as [Hitem Hrest].
  destruct item as [| text | | | | |]; try discriminate.
  destruct (register_package_only_under (split "." text) conf registry)
    as (registry' & -> & Honly'); [apply split_nonempty | done |].
  by apply IH.
Qed.

(** A registration creates a node for its first basename. *)
Lemma register_package_nonempty package_basenames conf curr curr' :
  register_package package_basenames conf curr = Return curr' ->
  package_basenames <> [] \/ subpackages curr <> ∅ ->
  subpackages curr' <> ∅.
Proof.
  destruct package_basenames as [|basename rest]; simpl.
  - intros Hregister [?|Hitems]; [done|].
    destruct (conf_if_added curr) as [conf_curr|].
    + case_decide; [|discriminate]. by injection Hregister as <-.
    + by injection Hregister as <-.
  - intros (node' & _ & [= <-])%bind_Return_inv _. simpl.
    apply insert_non_empty.
Qed.

Lemma add_packages_register_nonempty (items : list object) conf registry :
  subpackages registry <> ∅ ->
  subpackages (add_packages_register items conf registry).2 <> ∅.
Proof.
  revert registry. induction items as [|item rest IH]; intros registry;
    simpl; [done|].
  destruct item as [| text | | | | |]; try done.
  destruct (register_package (split "." text) conf registry)
    as [registry'|exc] eqn:Hregister; [|done].
  intros Hitems. apply IH. eapply register_package_nonempty; [done|].
  by right.
Qed.

End clawpkgadd_registration.

(** X10. For a package outside of [beartype], [get_package_conf_if_added]
    returns the configuration of the deepest registered package among the
    package and its parents, the registration of all packages standing
    above them all; and [None] when none of these is registered. *)
Theorem get_package_conf_if_added_deepest `{ClawHost}
    (registry : PackageBasenameToSubpackages) (package_name : string) :
  split "." package_name !! 0%nat <> Some "beartype" ->
  (get_package_conf_if_added registry package_name = None
   /\ forall above below,
        split "." package_name = (above ++ below)%list ->
        registered_conf_at above registry = None)
  \/ (exists above below conf,
        split "." package_name = (above ++ below)%list
        /\ get_package_conf_if_added registry package_name = Some conf
        /\ registered_conf_at above registry = Some conf
        /\ forall deeper rest,
             below = (deeper ++ rest)%list -> deeper <> [] ->
             registered_conf_at (above ++ deeper)%list registry = None).
Proof. apply get_package_conf_if_added_deepest_of. Qed.

(** The packages [a] and [a.b.c] registered under two configurations at
    the concrete host: [a.b] gets that of [a], [a.b.c.d] that of
    [a.b.c], and [z] none. *)
Lemma get_package_conf_if_added_deepest_witness :
  let conf := {| host.is_debug := false; host.strategy := 1 |} in
  let conf_debug := {| host.is_debug := true; host.strategy := 1 |} in
  let registry :=
    (add_packages (H := host.claw) (Str "a.b.c") conf_debug
       (add_packages (H := host.claw) (Str "a") conf
          PackageBasenameToSubpackages_new).2).2 in
  get_package_conf_if_added (H := host.claw) registry "a.b" = Some conf
  /\ get_package_conf_if_added (H := host.claw) registry "a.b.c.d"
     = Some conf_debug
  /\ get_package_conf_if_added (H := host.claw) registry "z" = None.
Proof.
  intros conf conf_debug registry.
  split; [reflexivity|]. split; [reflexivity|].
  destruct (get_package_conf_if_added_deepest (H := host.claw) registry "z")
    as [[Hnone _]|(above & below & conf' & Happ & Hget & _)].
  - discriminate.
  - exact Hnone.
  - discriminate.
Defined.

(** X11. After [add_packages] returned for a string, a tuple or a list
    of package names, [get_package_conf_if_added] returns the
    configuration passed for every package it named, outside of
    [beartype]; after it returned for a one-shot iterator, which the
    validation loop has exhausted, the registry is as it was; and it
    returns for nothing else. *)
Theorem add_packages_then_get_package_conf `{ClawHost}
    (package_names : object) (conf : BeartypeConf)
    (registry registry' : PackageBasenameToSubpackages) :
  add_packages package_names conf registry = (Return tt, registry') ->
  match package_names with
  | Str package_name =>
      split "." package_name !! 0%nat <> Some "beartype" ->
      get_package_conf_if_added registry' package_name = Some conf
  | Tuple items | List items =>
      forall package_name,
        Str package_name ∈ items ->
        split "." package_name !! 0%nat <> Some "beartype" ->
        get_package_conf_if_added registry' package_name = Some conf
  | Iterator _ => registry' = registry
  | _ => False
  end.
Proof.
  rewrite add_packages_unfold, package_names_passes_spec.
  destruct package_names as [| package_name | items | items | | | items];
    try discriminate.
  - destruct (forallb is_package_name [Str package_name]);
      [|discriminate].
    intros Hadd Hfirst.
    apply get_package_conf_if_added_registered; [done|].
    eapply add_packages_register_registers; [done | left].
  - destruct items as [|item rest]; [discriminate|].
    destruct (forallb is_package_name (item :: rest)); [|discriminate].
    intros Hadd package_name Hin Hfirst.
    apply get_package_conf_if_added_registered; [done|].
    by eapply add_packages_register_registers.
  - destruct items as [|item rest]; [discriminate|].
    destruct (forallb is_package_name (item :: rest)); [|discriminate].
    intros Hadd package_name Hin Hfirst.
    apply get_package_conf_if_added_registered; [done|].
    by eapply add_packages_register_registers.
  - destruct (forallb is_package_name items); [|discriminate].
    by intros [= <-].
Qed.

(** The packages [muh_package] and [muh_package.sub] at the concrete
    host, named by a tuple and by a one-shot iterator. *)
Lemma add_packages_then_get_package_conf_witness :
  let conf := {| host.is_debug := false; host.strategy := 1 |} in
  let names := [Str "muh_package"; Str "muh_package.sub"] in
  get_package_conf_if_added (H := host.claw)
    (add_packages (H := host.claw) (Tuple names) conf
       PackageBasenameToSubpackages_new).2 "muh_package.sub" = Some conf
  /\ (add_packages (H := host.claw) (Iterator names) conf
        PackageBasenameToSubpackages_new).2
     = PackageBasenameToSubpackages_new.
Proof.
  intros conf names. split.
  - apply (add_packages_then_get_package_conf (H := host.claw)
             (Tuple names) conf PackageBasenameToSubpackages_new).
    + reflexivity.
    + right. left.
    + discriminate.
  - exact (add_packages_then_get_package_conf (H := host.claw)
             (Iterator names) conf PackageBasenameToSubpackages_new
             (add_packages (H := host.claw) (Iterator names) conf
                PackageBasenameToSubpackages_new).2 eq_refl).
Defined.

(** X12. A submodule below which nothing was registered gets what its
    package gets: when the registry has no node for the first basename of
    [submodule] below [package], [get_package_conf_if_added] returns the
    same for [package.submodule] as for [package]. *)
Theorem get_package_conf_if_added_submodule `{ClawHost}
    (registry : PackageBasenameToSubpackages) (package submodule : string)
    (basename : string) (rest : list string) :
  split "." submodule = basename :: rest ->
  subpackages_at (split "." package ++ [basename])%list registry = None ->
  get_package_conf_if_added registry (package ++ "." ++ submodule)
  = get_package_conf_if_added registry package.
Proof.
  intros Hsubmodule Hnode. unfold get_package_conf_if_added.
  change (package ++ "." ++ submodule)
    with (package ++ String "." submodule).
  rewrite split_app, Hsubmodule.
  assert (Hfirst : (split "." package ++ basename :: rest)%list !! 0%nat
                   = split "." package !! 0%nat).
  { pose proof (split_nonempty "." package).
    by destruct (split "." package). }
  rewrite Hfirst. case_bool_decide; [done|].
  by apply get_package_conf_loop_app_None.
Qed.

(** The package [muh_package] registered at the concrete host: its
    submodule [muh_package.sub.module] gets its configuration. *)
Lemma get_package_conf_if_added_submodule_witness :
  let conf := {| host.is_debug := false; host.strategy := 1 |} in
  let registry :=
    (add_packages (H := host.claw) (Str "muh_package") conf
       PackageBasenameToSubpackages_new).2 in
  get_package_conf_if_added (H := host.claw) registry
    "muh_package.sub.module" = Some conf.
Proof.
  intros conf registry.
  etransitivity.
  - exact (get_package_conf_if_added_submodule (H := host.claw) registry
             "muh_package" "sub.module" "sub" ["module"] eq_refl eq_refl).
  - reflexivity.
Defined.

(** X13. [add_packages_all] returns exactly when no configuration is
    registered for all packages or the registered one is [conf], and
    raises the registration exception otherwise, changing nothing.  When
    it returns, [conf] is registered for all packages, the registrations
    by name are as before, every package outside of [beartype] gets a
    configuration, and a second call is a no-op. *)
Theorem add_packages_all_spec `{ClawHost} (conf : BeartypeConf)
    (registry : PackageBasenameToSubpackages) :
  let out := add_packages_all conf registry in
  (out.1 = Return tt
   <-> conf_if_added registry = None \/ conf_if_added registry = Some conf)
  /\ (out.1 <> Return tt ->
      out = (Raise BeartypeClawRegistrationException, registry))
  /\ (out.1 = Return tt ->
      conf_if_added out.2 = Some conf
      /\ subpackages out.2 = subpackages registry
      /\ (forall package_name,
            registered_conf out.2 package_name
            = registered_conf registry package_name)
      /\ (forall package_name,
            split "." package_name !! 0%nat <> Some "beartype" ->
            is_Some (get_package_conf_if_added out.2 package_name))
      /\ add_packages_all conf out.2 = (Return tt, out.2)).
Proof.
  intros out. unfold out, add_packages_all.
  destruct (conf_if_added registry) as [conf_curr|] eqn:Hroot.
  - case_decide as Hsame; simpl.
    + subst conf_curr. split; [split; [by right | done]|].
      split; [done|]. intros _. rewrite Hroot, decide_True by done.
      repeat split; try done.
      intros package_name Hfirst.
      destruct (get_package_conf_if_added_deepest_of registry package_name
                  Hfirst)
        as [[_ Hnone]|(above & below & conf' & _ & -> & _)]; [|by eexists].
      specialize (Hnone [] (split "." package_name) eq_refl).
      change (conf_if_added registry = None) in Hnone. congruence.
    + split; [split; [done | intros [?|?]; congruence]|].
      split; [done|]. done.
  - simpl. split; [split; [by left | done]|]. split; [done|]. intros _.
    rewrite decide_True by done.
    split; [done|]. split; [done|]. split.
    { intros package_name. unfold registered_conf.
      pose proof (split_nonempty "." package_name).
      by destruct (split "." package_name). }
    split; [|done]. intros package_name Hfirst.
    destruct (get_package_conf_if_added_deepest_of
                (Subpackages (Some conf) (subpackages registry))
                package_name Hfirst)
      as [[_ Hnone]|(above & below & conf' & _ & -> & _)]; [|by eexists].
    by specialize (Hnone [] (split "." package_name) eq_refl).
Qed.

(** X14. [add_packages], whether it returns or raises, keeps every
    configuration that is registered, by name or for all packages; hence
    a package that gets a configuration from [get_package_conf_if_added]
    gets one after the call as well. *)
Theorem add_packages_keeps_registrations `{ClawHost}
    (package_names : object) (conf : BeartypeConf)
    (registry : PackageBasenameToSubpackages) :
  let registry' := (add_packages package_names conf registry).2 in
  (forall package_basenames conf_curr,
      registered_conf_at package_basenames registry = Some conf_curr ->
      registered_conf_at package_basenames registry' = Some conf_curr)
  /\ (forall package_name conf_curr,
      get_package_conf_if_added registry package_name = Some conf_curr ->
      is_Some (get_package_conf_if_added registry' package_name)).
Proof.
  intros registry'.
  assert (Hkeeps : forall package_basenames conf_curr,
    registered_conf_at package_basenames registry = Some conf_curr ->
    registered_conf_at package_basenames registry' = Some conf_curr).
  { intros package_basenames conf_curr Hregistered. unfold registry'.
    destruct (add_packages_result package_names conf registry)
      as [->|(items & _ & _ & _ & ->)]; [done|].
    by apply add_packages_register_keeps. }
  split; [done|]. intros package_name conf_curr Hget.
  assert (Hfirst : split "." package_name !! 0%nat <> Some "beartype").
  { intros Hfirst. unfold get_package_conf_if_added in Hget.
    by rewrite bool_decide_true in Hget. }
  destruct (get_package_conf_if_added_deepest_of registry package_name Hfirst)
    as [[Hnone _]|(above & below & conf' & Happ & _ & Hconf & _)];
    [congruence|].
  apply Hkeeps in Hconf.
  destruct (get_package_conf_if_added_deepest_of registry' package_name
              Hfirst)
    as [[_ Hnone]|(above' & below' & conf'' & _ & -> & _)]; [|by eexists].
  by rewrite (Hnone above below Happ) in Hconf.
Qed.

(** X15. [add_packages], whether it returns or raises, changes neither
    the configuration registered for all packages nor the registration of
    any package it was not passed: registering a package registers
    neither its parents nor its subpackages. *)
Theorem add_packages_other_packages `{ClawHost} (package_names : object)
    (conf : BeartypeConf) (registry : PackageBasenameToSubpackages) :
  let registry' := (add_packages package_names conf registry).2 in
  conf_if_added registry' = conf_if_added registry
  /\ forall other,
       (forall items,
           package_names_items package_names = Some items ->
           Str other ∉ items) ->
       registered_conf registry' other = registered_conf registry other.
Proof.
  intros registry'. unfold registry'.
  destruct (add_packages_result package_names conf registry)
    as [->|(items & Hpasses & _ & _ & ->)]; [done|].
  split.
  - apply (add_packages_register_other items conf registry []).
    intros text _ Hsplit. by apply (split_nonempty "." text).
  - intros other Hother.
    apply (add_packages_register_other items conf registry
             (split "." other)).
    intros text Hin Hsplit. apply split_inj in Hsplit as ->.
    apply (Hother items); [|done].
    unfold package_names_items. by rewrite Hpasses.
Qed.

(** The package [a.b] registered at the concrete host while [a.b.c] was:
    neither [a] nor [a.b.c] changes. *)
Example add_packages_other_packages_example :
  let conf := {| host.is_debug := false; host.strategy := 1 |} in
  let registry :=
    (add_packages (H := host.claw) (Str "a.b.c") conf
       PackageBasenameToSubpackages_new).2 in
  let registry' := (add_packages (H := host.claw) (Str "a.b") conf registry).2 in
  registered_conf (H := host.claw) registry' "a" = None
  /\ registered_conf (H := host.claw) registry' "a.b" = Some conf
  /\ registered_conf (H := host.claw) registry' "a.b.c" = Some conf
  /\ get_package_conf_if_added (H := host.claw) registry' "a" = None.
Proof. repeat split. Qed.

(** X16. [is_packages_registered_any] is [False] for a new registry,
    [True] after any [add_packages] that returned for a string, a tuple or
    a list, as it was after an [add_packages] that returned for a one-shot
    iterator, stays [True] through every later [add_packages], and is not
    changed by [add_packages_all]. *)
Theorem is_packages_registered_any_spec `{ClawHost} (package_names : object)
    (conf : BeartypeConf) (registry : PackageBasenameToSubpackages) :
  is_packages_registered_any PackageBasenameToSubpackages_new = false
  /\ ((add_packages package_names conf registry).1 = Return tt ->
      is_packages_registered_any (add_packages package_names conf registry).2
      = match package_names with
        | Iterator _ => is_packages_registered_any registry
        | _ => true
        end)
  /\ (is_packages_registered_any registry = true ->
      is_packages_registered_any (add_packages package_names conf registry).2
      = true)
  /\ is_packages_registered_any (add_packages_all conf registry).2
     = is_packages_registered_any registry.
Proof.
  assert (Hany : forall registry',
            is_packages_registered_any registry' = true
            <-> subpackages registry' <> ∅).
  { intros registry'. unfold is_packages_registered_any.
    by rewrite negb_true_iff, bool_decide_eq_false. }
  assert (Hregister : forall item rest,
            forallb is_package_name (item :: rest) = true ->
            subpackages
              (add_packages_register (item :: rest) conf registry).2 <> ∅).
  { intros item rest Hvalid. simpl in Hvalid.
    apply andb_prop in Hvalid as [Hitem _].
    destruct item as [| text | | | | |]; try discriminate. simpl.
    destruct (register_package (split "." text) conf registry)
      as [registry1|exc] eqn:Hregister.
    - apply add_packages_register_nonempty.
      eapply register_package_nonempty; [done|]. left.
      apply split_nonempty.
    - apply register_package_raise_registered in Hregister
        as (_ & conf_curr & Hregistered & _).
      simpl. intros Hempty.
      pose proof (split_nonempty "." text) as Hnonempty.
      destruct (split "." text) as [|basename others]; [done|].
      simpl in Hregistered. by rewrite Hempty, lookup_empty in Hregistered. }
  split; [done|]. split; [|split].
  - rewrite add_packages_unfold, package_names_passes_spec.
    destruct package_names as [| text | items | items | | | items];
      try done.
    + destruct (forallb is_package_name [Str text]) eqn:Hvalid; [|done].
      intros _. by apply Hany, Hregister.
    + destruct items as [|item rest]; [done|].
      destruct (forallb is_package_name (item :: rest)) eqn:Hvalid; [|done].
      intros _. by apply Hany, Hregister.
    + destruct items as [|item rest]; [done|].
      destruct (forallb is_package_name (item :: rest)) eqn:Hvalid; [|done].
      intros _. by apply Hany, Hregister.
    + by destruct (forallb is_package_name items).
  - rewrite !Hany. intros Hitems.
    destruct (add_packages_result package_names conf registry)
      as [->|(items & _ & _ & _ & ->)]; [done|].
    by apply add_packages_register_nonempty.
  - unfold add_packages_all.
    destruct (conf_if_added registry) as [conf_curr|]; [|done].
    by case_decide.
Qed.

(** X17. [packages_unadded] hands on what its block returned or raised
    and leaves a registry without any package registered by name, on which
    [add_packages] returns for any valid package names under any
    configuration. *)
Theorem packages_unadded_spec `{ClawHost} {A : Type}
    (block : PackageBasenameToSubpackages ->
             result A * PackageBasenameToSubpackages)
    (registry : PackageBasenameToSubpackages) :
  let out := packages_unadded block registry in
  out.1 = (block registry).1
  /\ is_packages_registered_any out.2 = false
  /\ (forall package_name, registered_conf out.2 package_name = None)
  /\ (forall package_names items conf,
        package_names_items package_names = Some items ->
        items <> [] ->
        forallb is_package_name items = true ->
        (add_packages package_names conf out.2).1 = Return tt).
Proof.
  intros out. split; [done|]. split; [done|].
  assert (Hnone : forall package_basenames,
            package_basenames <> [] ->
            registered_conf_at package_basenames out.2 = None).
  { intros [|basename rest] Hnonempty; [done|].
    by rewrite registered_conf_at_cons. }
  split.
  - intros package_name. apply Hnone, split_nonempty.
  - intros package_names items conf Hitems Hnonempty Hvalid.
    rewrite add_packages_unfold,
      (package_names_items_nonempty _ _ Hitems Hnonempty), Hvalid.
    apply add_packages_register_only_under; [done|].
    intros package_basenames conf_curr Hbasenames Hregistered.
    by rewrite Hnone in Hregistered.
Qed.

(** A block that registers [muh_package] and then raises, at the concrete
    host: the package can be registered again under another
    configuration afterwards. *)
Example packages_unadded_example :
  let conf := {| host.is_debug := false; host.strategy := 1 |} in
  let conf_debug := {| host.is_debug := true; host.strategy := 1 |} in
  let block registry :=
    ((Raise TypeError : result unit),
     (add_packages (H := host.claw) (Str "muh_package") conf registry).2) in
  let out := packages_unadded block PackageBasenameToSubpackages_new in
  out.1 = Raise TypeError
  /\ registered_conf (H := host.claw) out.2 "muh_package" = None
  /\ (add_packages (H := host.claw) (Str "muh_package") conf_debug out.2).1
     = Return tt.
Proof. repeat split. Qed.

(** ** [_clawimportlib] *)

(** X18. [beartype_submodules_on_import] called without package names
    never installs its hook: it raises, and leaves the import state as it
    was, for every caller.  For a caller at module scope in a submodule of
    a package, the case the default is written for, what it raises is the
    [TypeError] of [rpartition()]. *)
Theorem beartype_submodules_on_import_default_raises `{ClawHost}
    (FUNC_CODEOBJ_NAME_MODULE : string) (conf : BeartypeConf)
    (frame_caller : result frame) (sys : import_state) :
  (exists exc,
      beartype_submodules_on_import FUNC_CODEOBJ_NAME_MODULE None conf
        frame_caller sys = (Raise exc, sys))
  /\ (forall caller,
        frame_caller = Return caller ->
        co_name caller = FUNC_CODEOBJ_NAME_MODULE ->
        contains_char "." (f_globals_name caller) = true ->
        beartype_submodules_on_import FUNC_CODEOBJ_NAME_MODULE None conf
          frame_caller sys = (Raise TypeError, sys)).
Proof.
  unfold beartype_submodules_on_import, package_names_default. split.
  - destruct frame_caller as [caller|exc]; simpl; [|by eexists].
    destruct (negb _); [by eexists|].
    destruct (negb _); by eexists.
  - intros caller -> <- Hdot. simpl.
    by rewrite String.eqb_refl, Hdot.
Qed.

(** X19. [beartype_submodules_on_import] passed package names returns
    exactly when they are a non-empty tuple or list of package names, a
    non-empty string whose characters are package names, or a one-shot
    iterator that yields package names only, be it none at all; it then
    puts one new hook in front of [sys.path_hooks], whether or not its
    hook is there already, empties [sys.path_importer_cache] and
    invalidates the caches once; otherwise it raises the registration
    exception and leaves the import state as it was.  The hooks that were
    there stay, in their order. *)
Theorem beartype_submodules_on_import_hooks `{ClawHost}
    (FUNC_CODEOBJ_NAME_MODULE : string) (package_names : object)
    (conf : BeartypeConf) (frame_caller : result frame)
    (sys : import_state) :
  let out :=
    beartype_submodules_on_import FUNC_CODEOBJ_NAME_MODULE
      (Some package_names) conf frame_caller sys in
  (out.1 = Return tt
   <-> match package_names with
       | Str text =>
           text <> EmptyString
           /\ forallb is_package_name (Str <$> code_points text) = true
       | Tuple items | List items =>
           items <> [] /\ forallb is_package_name items = true
       | Iterator items => forallb is_package_name items = true
       | _ => False
       end)
  /\ (out.1 = Return tt ->
      path_hooks out.2 = path_hook_beartype :: path_hooks sys
      /\ path_importer_cache out.2 = ∅
      /\ caches_invalidated out.2 = S (caches_invalidated sys))
  /\ (out.1 <> Return tt ->
      out = (Raise BeartypeClawRegistrationException, sys))
  /\ path_hooks sys `suffix_of` path_hooks out.2.
Proof.
  intros out. unfold out, beartype_submodules_on_import.
  assert (Hsuffix : path_hooks sys
                    `suffix_of` path_hook_beartype :: path_hooks sys)
    by by apply suffix_cons_r.
  destruct package_names as [| text | items | items | | | items]; simpl;
    try (by repeat split).
  - case_bool_decide as Htext; simpl; [by repeat split; try intros []|].
    rewrite add_packages_validate_spec.
    destruct (forallb is_package_name (Str <$> code_points text));
      repeat split; try done; by intros [].
  - case_bool_decide as Hitems; simpl; [by repeat split; try intros []|].
    rewrite add_packages_validate_spec.
    destruct (forallb is_package_name items);
      repeat split; try done; by intros [].
  - case_bool_decide as Hitems; simpl; [by repeat split; try intros []|].
    rewrite add_packages_validate_spec.
    destruct (forallb is_package_name items);
      repeat split; try done; by intros [].
  - rewrite add_packages_validate_spec.
    destruct (forallb is_package_name items);
      repeat split; try done.
Qed.

(** Two calls at the concrete host leave two hooks; a string is iterated
    by its characters, not taken as one package name; and an iterator
    that yields nothing is true where an empty tuple is not. *)
Example beartype_submodules_on_import_twice :
  let conf := {| host.is_debug := false; host.strategy := 1 |} in
  let sys := {| path_hooks := [path_hook_other "zipimporter"];
                path_importer_cache := {[ "/usr/lib" := "FileFinder" ]};
                caches_invalidated := 0 |} in
  let call names sys :=
    beartype_submodules_on_import (H := host.claw) "<module>" (Some names)
      conf (Raise TypeError) sys in
  path_hooks (call (Tuple [Str "muh_package"])
                (call (Tuple [Str "muh_package"]) sys).2).2
  = [path_hook_beartype; path_hook_beartype; path_hook_other "zipimporter"]
  /\ (call (Str "a.b") sys).1 = Raise BeartypeClawRegistrationException
  /\ (call (Str "ab") sys).1 = Return tt
  /\ (call (Tuple []) sys).1 = Raise BeartypeClawRegistrationException
  /\ (call (Iterator []) sys).1 = Return tt.
Proof. repeat split. Qed.

(** ** [clawpkgadd]: a registration that raises half-way *)

(** The registration loop over a concatenation runs the loop over the
    first part and then, unless that raised, over the second. *)
Lemma add_packages_register_app `{ClawHost} (items1 items2 : list object)
    (conf : BeartypeConf) (registry : PackageBasenameToSubpackages) :
  add_packages_register (items1 ++ items2)%list conf registry
  = match add_packages_register items1 conf registry with
    | (Return _, registry1) => add_packages_register items2 conf registry1
    | (Raise exc, registry1) => (Raise exc, registry1)
    end.
Proof.
  revert registry. induction items1 as [|item rest IH]; intros registry;
    simpl; [done|].
  destruct item as [| text | | | | |]; try done.
  by destruct (register_package (split "." text) conf registry).
Qed.

(** X20. The registration of several packages is not all or nothing:
    when the names the registration loop iterates over are valid and one
    of them is registered under another configuration, [add_packages]
    raises the registration exception, and the packages named before that
    one are registered all the same.  The same names yielded by a one-shot
    iterator are never registered: the call returns and leaves the
    registry as it was. *)
Theorem add_packages_raises_half_way `{ClawHost} (package_names : object)
    (before after : list object) (package_name : string)
    (conf conf_curr : BeartypeConf)
    (registry registry1 : PackageBasenameToSubpackages) :
  package_names_items package_names
  = Some (before ++ Str package_name :: after)%list ->
  forallb is_package_name (before ++ Str package_name :: after)%list = true ->
  add_packages_register before conf registry = (Return tt, registry1) ->
  registered_conf registry1 package_name = Some conf_curr ->
  conf_curr <> conf ->
  add_packages package_names conf registry
  = (Raise BeartypeClawRegistrationException, registry1)
  /\ (forall name, Str name ∈ before ->
                   registered_conf registry1 name = Some conf)
  /\ (exists items, package_names = Str package_name
                    \/ package_names = Tuple items
                    \/ package_names = List items)
  /\ add_packages (Iterator (before ++ Str package_name :: after)%list)
       conf registry = (Return tt, registry).
Proof.
  intros Hitems Hvalid Hbefore Hregistered Hdiffer.
  assert (Hnonempty : (before ++ Str package_name :: after)%list <> [])
    by by destruct before.
  pose proof (package_names_items_nonempty _ _ Hitems Hnonempty) as Hpasses.
  split; [|split; [|split]].
  - rewrite add_packages_unfold, Hpasses, Hvalid.
    rewrite add_packages_register_app, Hbefore. simpl.
    by rewrite (register_package_conflict _ _ conf_curr).
  - intros name Hin. by eapply add_packages_register_registers.
  - rewrite package_names_passes_spec in Hpasses.
    destruct package_names as [| text | items | items | | | items];
      try discriminate.
    + exists []. left. injection Hpasses as Hnames.
      destruct before as [|item [|item' before]]; try discriminate.
      by injection Hnames as ->.
    + exists items. right. by left.
    + exists items. right. by right.
    + injection Hpasses as Hnames _.
      by destruct before.
  - by rewrite add_packages_unfold, package_names_passes_spec, Hvalid.
Qed.

(** The package [b] registered under one configuration at the concrete
    host, then [a], [b] and [c] under another: the call raises, [a] is
    registered and [c] is not. *)
Lemma add_packages_raises_half_way_witness :
  let conf := {| host.is_debug := false; host.strategy := 1 |} in
  let conf_debug := {| host.is_debug := true; host.strategy := 1 |} in
  let registry :=
    (add_packages (H := host.claw) (Str "b") conf
       PackageBasenameToSubpackages_new).2 in
  let out :=
    add_packages (H := host.claw) (List [Str "a"; Str "b"; Str "c"])
      conf_debug registry in
  out.1 = Raise BeartypeClawRegistrationException
  /\ registered_conf (H := host.claw) out.2 "a" = Some conf_debug
  /\ registered_conf (H := host.claw) out.2 "c" = None
  /\ add_packages (H := host.claw)
       (Iterator [Str "a"; Str "b"; Str "c"]) conf_debug registry
     = (Return tt, registry).
Proof.
  intros conf conf_debug registry out.
  destruct (add_packages_raises_half_way (H := host.claw)
              (List [Str "a"; Str "b"; Str "c"]) [Str "a"] [Str "c"] "b"
              conf_debug conf registry
              (add_packages_register (H := host.claw) [Str "a"] conf_debug
                 registry).2)
    as (Hout & Hbefore & _ & Hiterator);
    try reflexivity; try discriminate.
  unfold out. rewrite Hout.
  split; [reflexivity|]. split; [|split; [reflexivity | exact Hiterator]].
  apply Hbefore. left.
Defined.
